(** * Gap-filling imputation of hourly weather series (scripts/impute.py)

    A shallow embedding of the imputation engine: gap scanning, diurnal
    profiles, Strategy A (linear interpolation, gaps of 1-2 rows),
    Strategy B (diurnal profile plus blended edge offsets, gaps of 3-24
    rows), physical bounds and the per-row provenance strings.

    Modelling conventions.
    - A float is an exact rational or NaN: [float := option Q], [None]
      being NaN.  Rounding error of binary floating point is not modelled;
      arithmetic on NaN yields NaN, as in numpy.  Infinities are not
      modelled either: a statement on the values that [np.linspace]
      interpolates assumes the boundary values within [float_range], where
      no sum or difference of Strategy A overflows.
    - A pandas DataFrame is the list of its rows; a column is the list of
      one field.  Positional access ([.iloc], [ndarray[i]], [list[i]])
      raises [IndexError] out of range, which the [Result] monad records.
    - Every row of the parsed table has a date and a station id; a station
      id is an integer or a string, as [read_csv] parses the column.
    - The wind direction with its float remainder [% 360] and the rounding
      to two decimals of the written file are left out: the exact
      arithmetic would not show what the binary operations return.
    - Python loops over an index are written with fuel; the fuel given is
      shown to be enough. *)

From Stdlib Require Import String Ascii.
From Stdlib Require Import List Bool Arith PeanoNat ZArith QArith Lia Lqa.
From Stdlib Require Import Permutation.
Import ListNotations.

Local Open Scope string_scope.
Local Open Scope list_scope.
Local Open Scope nat_scope.

(** ** Floats with NaN *)

Definition float : Type := option Q.

Definition nan : float := None.

Definition isnan (x : float) : bool :=
  match x with None => true | Some _ => false end.

Definition fsub (a b : float) : float :=
  match a, b with
  | Some x, Some y => Some (x - y)%Q
  | _, _ => None
  end.

Definition fadd (a b : float) : float :=
  match a, b with
  | Some x, Some y => Some (x + y)%Q
  | _, _ => None
  end.

(** ** Exceptions *)

Inductive exn : Type := IndexError | ValueError | TypeError.

Inductive Result (A : Type) : Type :=
| Ok (a : A)
| Raise (e : exn).

Arguments Ok {A} a.
Arguments Raise {A} e.

Definition bind {A B : Type} (c : Result A) (k : A -> Result B) : Result B :=
  match c with
  | Ok a => k a
  | Raise e => Raise e
  end.

Notation "x <- c ;; k" := (bind c (fun x => k))
  (at level 61, c at next level, right associativity).

Fixpoint mapM {A B : Type} (f : A -> Result B) (l : list A) : Result (list B) :=
  match l with
  | [] => Ok []
  | a :: l' => b <- f a ;; bs <- mapM f l' ;; Ok (b :: bs)
  end.

Fixpoint foldM {A B : Type} (f : A -> B -> Result A) (l : list B) (a : A) : Result A :=
  match l with
  | [] => Ok a
  | b :: l' => a' <- f a b ;; foldM f l' a'
  end.

(** ** numpy helpers *)

(** [np.linspace(start, stop, num)]: [num] evenly spaced samples over the
    closed interval, the last one set to [stop]. *)
Definition linspace (start stop : Q) (num : nat) : list Q :=
  let step := ((stop - start) / inject_Z (Z.of_nat (num - 1)))%Q in
  map (fun i =>
         if (S i =? num) && (1 <? num) then stop
         else (start + inject_Z (Z.of_nat i) * step)%Q)
      (seq 0 num).

(** The slice [[1:-1]]. *)
Definition slice_1_m1 {A : Type} (l : list A) : list A := removelast (tl l).

(** [np.clip(x, a_min, a_max)] on one element; [a_max = None] is no upper
    bound.  NaN stays NaN. *)
Definition np_clip (a_min : Q) (a_max : option Q) (x : float) : float :=
  match x with
  | None => None
  | Some v =>
      let v1 := if Qle_bool a_min v then v else a_min in
      match a_max with
      | Some hi => Some (if Qle_bool v1 hi then v1 else hi)
      | None => Some v1
      end
  end.

(** ** Data model *)

Record datetime : Type := mkDatetime {
  dt_year : Z; dt_month : Z; dt_day : Z; dt_hour : Z; dt_minute : Z
}.

(** A station id as [read_csv] parses the column [ID_STATION]: an
    integer when the field is an integer literal, a string otherwise. *)
Inductive StationId : Type :=
| IntId (n : Z)
| StrId (s : string).

(** [a == b] on station ids; an integer never equals a string. *)
Definition station_eqb (a b : StationId) : bool :=
  match a, b with
  | IntId x, IntId y => (x =? y)%Z
  | StrId x, StrId y => (x =? y)%string
  | _, _ => false
  end.

(** The variables of [IMPUTE_VARS]. *)
Inductive Var : Type := temperature | rh | wind_speed.

Definition IMPUTE_VARS : list Var := [temperature; rh; wind_speed].

Definition var_name (var : Var) : string :=
  match var with
  | temperature => "temperature"
  | rh => "rh"
  | wind_speed => "wind_speed"
  end.

(** A row of the cleaned frame.  The columns wind_dir, rainfall, duration,
    visibility and global_rad are read by no function below and are left
    out. *)
Record Row : Type := mkRow {
  date : datetime;
  station : StationId;
  row_temperature : float;
  row_rh : float;
  row_wind_speed : float;
  month : Z;
  hour : Z
}.

Definition DataFrame : Type := list Row.

(** [row[var]] *)
Definition cell (var : Var) (r : Row) : float :=
  match var with
  | temperature => row_temperature r
  | rh => row_rh r
  | wind_speed => row_wind_speed r
  end.

Definition set_cell (var : Var) (x : float) (r : Row) : Row :=
  match var with
  | temperature =>
      mkRow (date r) (station r) x (row_rh r) (row_wind_speed r) (month r) (hour r)
  | rh =>
      mkRow (date r) (station r) (row_temperature r) x (row_wind_speed r) (month r) (hour r)
  | wind_speed =>
      mkRow (date r) (station r) (row_temperature r) (row_rh r) x (month r) (hour r)
  end.

(** [df[var].values] *)
Definition column (var : Var) (df : DataFrame) : list float := map (cell var) df.

(** Checked positional access: [l[i]] for [0 <= i]. *)
Definition getitem {A : Type} (l : list A) (i : nat) : Result A :=
  match nth_error l i with
  | Some a => Ok a
  | None => Raise IndexError
  end.

(** [l[i] = x] *)
Fixpoint update {A : Type} (l : list A) (i : nat) (x : A) : list A :=
  match l, i with
  | [], _ => []
  | _ :: t, O => x :: t
  | a :: t, S j => a :: update t j x
  end.

Definition setitem {A : Type} (l : list A) (i : nat) (x : A) : Result (list A) :=
  if i <? length l then Ok (update l i x) else Raise IndexError.

(** [df.iloc[indices, df.columns.get_loc(var)] = values] *)
Definition iloc_set (df : DataFrame) (indices : list nat) (var : Var)
    (values : list float) : Result DataFrame :=
  if negb (length values =? length indices) then Raise ValueError
  else
    foldM (fun d iv =>
             r <- getitem d (fst iv) ;;
             setitem d (fst iv) (set_cell var (snd iv) r))
          (combine indices values) df.

(** ** find_gaps *)

(** The inner [while i < n and is_missing[i]: i += 1]; returns the final [i]. *)
Fixpoint find_gaps_inner (is_missing : list bool) (n i fuel : nat) : nat :=
  match fuel with
  | O => i
  | S fuel' =>
      if (i <? n) && nth i is_missing false
      then find_gaps_inner is_missing n (i + 1) fuel'
      else i
  end.

(** The outer [while i < n]; [gaps] is the list built so far. *)
Fixpoint find_gaps_outer (is_missing : list bool) (n i : nat)
    (gaps : list (nat * nat)) (fuel : nat) : list (nat * nat) :=
  match fuel with
  | O => gaps
  | S fuel' =>
      if i <? n then
        if nth i is_missing false then
          let start := i in
          let i' := find_gaps_inner is_missing n i n in
          find_gaps_outer is_missing n i' (gaps ++ [(start, i' - start)]) fuel'
        else find_gaps_outer is_missing n (i + 1) gaps fuel'
      else gaps
  end.

Definition find_gaps (is_missing : list bool) : list (nat * nat) :=
  let n := length is_missing in
  find_gaps_outer is_missing n 0 [] n.

(** ** Diurnal profiles *)

(** A profile key: (station, month, hour). *)
Definition Key : Type := (StationId * Z * Z)%type.

Definition key_eqb (a b : Key) : bool :=
  let '(s1, m1, h1) := a in
  let '(s2, m2, h2) := b in
  station_eqb s1 s2 && (m1 =? m2)%Z && (h1 =? h2)%Z.

Definition row_key (r : Row) : Key := (station r, month r, hour r).

(** A pandas Series indexed by keys. *)
Definition Series : Type := list (Key * float).

(** [series.get(key, default)] *)
Definition Series_get (s : Series) (k : Key) (default : float) : float :=
  match find (fun kv => key_eqb (fst kv) k) s with
  | Some kv => snd kv
  | None => default
  end.

(** The dict [profiles]: one Series per variable of [IMPUTE_VARS]. *)
Definition Profiles : Type := Var -> Series.

Fixpoint dropna (l : list float) : list Q :=
  match l with
  | [] => []
  | Some v :: t => v :: dropna t
  | None :: t => dropna t
  end.

Definition Qsum (l : list Q) : Q := fold_right Qplus 0%Q l.

(** [mean()] of a group: NaN entries are skipped, a group without a valid
    entry has mean NaN. *)
Definition mean (l : list float) : float :=
  match dropna l with
  | [] => nan
  | vs => Some (Qsum vs / inject_Z (Z.of_nat (length vs)))%Q
  end.

(** The distinct keys of a frame (the order of the index plays no role in
    lookups). *)
Fixpoint group_keys (l : list Key) : list Key :=
  match l with
  | [] => []
  | k :: t => if existsb (key_eqb k) t then group_keys t else k :: group_keys t
  end.

(** [df.groupby(["station", "month", "hour"])[var].mean()] *)
Definition groupby_mean (df : DataFrame) (var : Var) : Series :=
  map (fun k =>
         (k, mean (map (cell var) (filter (fun r => key_eqb (row_key r) k) df))))
      (group_keys (map row_key df)).

Definition build_diurnal_profiles (df : DataFrame) : Profiles :=
  fun var => groupby_mean df var.

(** ** Bounds, interpolation and offset blending *)

(** The block [if var == "rh": ... elif var == "wind_speed": ...], which
    the source has once in each strategy (lines 165-169 and 211-214). *)
Definition enforce_bounds (var : Var) (result : list float) : list float :=
  match var with
  | rh => map (np_clip 0 (Some 100%Q)) result
  | wind_speed => map (np_clip 0 None) result
  | temperature => result
  end.

(** Strategy A, lines 202-209: the values [interp], or [None] for the
    [continue] of a gap without boundary values. *)
Definition interpolate (before_val after_val : float) (length : nat) : option (list float) :=
  match before_val, after_val with
  | Some b, Some a => Some (map Some (slice_1_m1 (linspace b a (length + 2))))
  | Some b, None => Some (repeat (Some b) length)
  | None, Some a => Some (repeat (Some a) length)
  | None, None => None
  end.

(** Strategy B, lines 145-150: an edge offset. *)
Definition edge_offset (val profile : float) : float :=
  if negb (isnan val) && negb (isnan profile) then fsub val profile else nan.

(** Strategy B, lines 153-161: the array [offsets]. *)
Definition blend_offsets (before_offset after_offset : float) (gap_len : nat) : list Q :=
  match before_offset, after_offset with
  | Some bo, Some ao =>
      map (fun w => (w * bo + (1 - w) * ao)%Q) (linspace 1 0 gap_len)
  | Some bo, None => repeat bo gap_len
  | None, Some ao => repeat ao gap_len
  | None, None => repeat 0%Q gap_len
  end.

(** Elementwise [profile_vals + offsets]. *)
Definition add_offsets (profile_vals : list float) (offsets : list Q) : list float :=
  map (fun po => fadd (fst po) (Some (snd po))) (combine profile_vals offsets).

(** ** impute_gap_strategy_b *)

(** Lines 105-109: the array [profile_vals]. *)
Definition lookup_profiles (profiles : Profiles) (var : Var) (station_ : StationId)
    (months hours : list Z) : list float :=
  map (fun mh => Series_get (profiles var) (station_, fst mh, snd mh) nan)
      (combine months hours).

(** Lines 131-142: the profile value at an edge row, read only when the
    edge value is valid and the edge exists. *)
Definition edge_profile (df_station : DataFrame) (profiles : Profiles) (var : Var)
    (station_ : StationId) (val : float) (exists_ : bool) (idx : nat) : Result float :=
  if negb (isnan val) && exists_ then
    edge_row <- getitem df_station idx ;;
    Ok (Series_get (profiles var) (station_, month edge_row, hour edge_row) nan)
  else Ok nan.

(** Lines 99-163: the array [result] before the physical bounds. *)
Definition strategy_b_result (df_station : DataFrame) (indices : list nat)
    (var : Var) (profiles : Profiles) : Result (option (list float)) :=
  row0 <- getitem df_station 0 ;;
  let station_ := station row0 in
  rows <- mapM (getitem df_station) indices ;;
  let months := map month rows in
  let hours := map hour rows in
  let gap_len := length indices in
  let profile_vals := lookup_profiles profiles var station_ months hours in
  if forallb isnan profile_vals then Ok None
  else
    first_idx <- getitem indices 0 ;;
    last_idx <- getitem indices (length indices - 1) ;;
    let col_values := column var df_station in
    before_val <- (if 0 <? first_idx then getitem col_values (first_idx - 1)
                   else Ok nan) ;;
    after_val <- (if last_idx + 1 <? length col_values
                  then getitem col_values (last_idx + 1)
                  else Ok nan) ;;
    before_profile <- edge_profile df_station profiles var station_ before_val
                        (0 <? first_idx) (first_idx - 1) ;;
    after_profile <- edge_profile df_station profiles var station_ after_val
                       (last_idx + 1 <? length col_values) (last_idx + 1) ;;
    let before_offset := edge_offset before_val before_profile in
    let after_offset := edge_offset after_val after_profile in
    let offsets := blend_offsets before_offset after_offset gap_len in
    Ok (Some (add_offsets profile_vals offsets)).

(** The whole function: all-NaN when no profile value exists, else the
    bounded [result]. *)
Definition impute_gap_strategy_b (df_station : DataFrame) (indices : list nat)
    (var : Var) (profiles : Profiles) : Result (list float) :=
  res <- strategy_b_result df_station indices var profiles ;;
  match res with
  | None => Ok (repeat nan (length indices))
  | Some result => Ok (enforce_bounds var result)
  end.

(** ** impute_station *)

(** Lines 226-232: the loop that records the method of one gap. *)
Definition record_method (methods : list string) (indices : list nat)
    (var : Var) (strategy : string) : Result (list string) :=
  foldM (fun ms idx =>
           let tag := (var_name var ++ ":" ++ strategy)%string in
           m <- getitem ms idx ;;
           if negb (m =? "")%string
           then setitem ms idx (m ++ "," ++ tag)%string
           else setitem ms idx tag)
        indices methods.

(** The working state of [impute_station]: the copied frame and [methods]. *)
Definition State : Type := (DataFrame * list string)%type.

(** The body of [for start, length in gaps] (lines 187-232). *)
Definition impute_station_gap (profiles : Profiles) (n : nat) (var : Var)
    (st : State) (gap : nat * nat) : Result State :=
  let '(df_station, methods) := st in
  let '(start, length) := gap in
  if 24 <? length then Ok st
  else
    let indices := seq start length in
    if length <=? 2 then
      before_val <- (if 0 <? start then getitem (column var df_station) (start - 1)
                     else Ok nan) ;;
      after_val <- (if start + length <? n
                    then getitem (column var df_station) (start + length)
                    else Ok nan) ;;
      match interpolate before_val after_val length with
      | None => Ok st
      | Some interp =>
          let interp := enforce_bounds var interp in
          df' <- iloc_set df_station indices var interp ;;
          methods' <- record_method methods indices var "A" ;;
          Ok (df', methods')
      end
    else
      filled <- impute_gap_strategy_b df_station indices var profiles ;;
      if forallb isnan filled then Ok st
      else
        df' <- iloc_set df_station indices var filled ;;
        methods' <- record_method methods indices var "B" ;;
        Ok (df', methods').

(** The body of [for var in IMPUTE_VARS] (lines 183-232). *)
Definition impute_station_var (profiles : Profiles) (n : nat) (st : State)
    (var : Var) : Result State :=
  let is_missing := map isnan (column var (fst st)) in
  let gaps := find_gaps is_missing in
  foldM (impute_station_gap profiles n var) gaps st.

(** Returns the imputed frame and its new column [impute_method]. *)
Definition impute_station (df_station : DataFrame) (profiles : Profiles)
    : Result (DataFrame * list string) :=
  let n := length df_station in
  let methods := repeat "" n in
  foldM (impute_station_var profiles n) IMPUTE_VARS (df_station, methods).

(** ** load_and_clean and main *)

(** A row of the table as parsed from the CSV file (after the renaming
    of the columns and [pd.to_datetime]). *)
Record RawRow : Type := mkRawRow {
  raw_date : datetime;
  raw_station : StationId;
  raw_temperature : float;
  raw_rh : float;
  raw_wind_speed : float
}.

(** Lines 51-61 on one row. *)
Definition clean_row (r : RawRow) : Row :=
  mkRow (raw_date r) (raw_station r)
        (raw_temperature r)
        (match raw_rh r with
         | Some v => if Qle_bool v 100 then Some v else Some 100%Q
         | None => None
         end)
        (match raw_wind_speed r with
         | Some v => Some (v * (514444 # 1000000))%Q
         | None => None
         end)
        (dt_month (raw_date r))
        (dt_hour (raw_date r)).

Definition datetime_compare (a b : datetime) : comparison :=
  match (dt_year a ?= dt_year b)%Z with
  | Eq =>
      match (dt_month a ?= dt_month b)%Z with
      | Eq =>
          match (dt_day a ?= dt_day b)%Z with
          | Eq =>
              match (dt_hour a ?= dt_hour b)%Z with
              | Eq => (dt_minute a ?= dt_minute b)%Z
              | c => c
              end
          | c => c
          end
      | c => c
      end
  | c => c
  end.

(** The order of station ids in [sort_values]: integers by value, strings
    by code point, and in a column holding both, integers first. *)
Definition station_compare (a b : StationId) : comparison :=
  match a, b with
  | IntId x, IntId y => (x ?= y)%Z
  | StrId x, StrId y => String.compare x y
  | IntId _, StrId _ => Lt
  | StrId _, IntId _ => Gt
  end.

Definition station_leb (a b : StationId) : bool :=
  match station_compare a b with Gt => false | _ => true end.

(** The order of [sort_values(["station", "date"])]. *)
Definition row_leb (a b : Row) : bool :=
  match station_compare (station a) (station b) with
  | Lt => true
  | Gt => false
  | Eq => match datetime_compare (date a) (date b) with Gt => false | _ => true end
  end.

Fixpoint insert_by {A : Type} (leb : A -> A -> bool) (x : A) (l : list A) : list A :=
  match l with
  | [] => [x]
  | y :: t => if leb x y then x :: y :: t else y :: insert_by leb x t
  end.

(** A stable sort. *)
Definition sort_by {A : Type} (leb : A -> A -> bool) (l : list A) : list A :=
  fold_right (insert_by leb) [] l.

Definition load_and_clean (raw : list RawRow) : DataFrame :=
  sort_by row_leb (map clean_row raw).

(** [series.unique()]: distinct values in order of first appearance. *)
Fixpoint unique (l : list StationId) : list StationId :=
  match l with
  | [] => []
  | s :: t => s :: filter (fun x => negb (station_eqb x s)) (unique t)
  end.

(** [a < b] of Python on station ids: an integer and a string are not
    comparable. *)
Definition lt_py (a b : StationId) : Result bool :=
  match a, b with
  | IntId x, IntId y => Ok (x <? y)%Z
  | StrId x, StrId y => Ok (match String.compare x y with Lt => true | _ => false end)
  | _, _ => Raise TypeError
  end.

Fixpoint insert_py (x : StationId) (l : list StationId) : Result (list StationId) :=
  match l with
  | [] => Ok [x]
  | y :: t =>
      c <- lt_py y x ;;
      if c then t' <- insert_py x t ;; Ok (y :: t') else Ok (x :: y :: t)
  end.

(** The built-in [sorted] on a list of station ids. *)
Fixpoint sorted (l : list StationId) : Result (list StationId) :=
  match l with
  | [] => Ok []
  | x :: t => t' <- sorted t ;; insert_py x t'
  end.

(** [pd.concat(objs)]: concatenating no object is an error. *)
Definition pd_concat {A : Type} (objs : list (list A)) : Result (list A) :=
  match objs with
  | [] => Raise ValueError
  | _ => Ok (concat objs)
  end.

(** A row of the output frame. *)
Record OutRow : Type := mkOutRow {
  out_row : Row;
  impute_method : string
}.

(** [main] up to line 257: from the parsed table to the sorted frame
    [df_out].  The printing, the dropping of helper columns, the date
    formatting and the rounding of the written values are left out. *)
Definition main (raw : list RawRow) : Result (list OutRow) :=
  let df := load_and_clean raw in
  let profiles := build_diurnal_profiles df in
  stations <- sorted (unique (map station df)) ;;
  results <- mapM (fun st =>
                     let df_st := filter (fun r => station_eqb (station r) st) df in
                     out <- impute_station df_st profiles ;;
                     Ok (map (fun rm => mkOutRow (fst rm) (snd rm))
                             (combine (fst out) (snd out))))
                  stations ;;
  df_out <- pd_concat results ;;
  Ok (sort_by (fun a b => row_leb (out_row a) (out_row b)) df_out).

(** ** A functional description of one run

    The definitions below have no counterpart in impute.py: they describe,
    by position, what the loops of [impute_station] compute.
    [impute_station_ok] shows that the code returns exactly this. *)

Fixpoint mapi_from {A B : Type} (f : nat -> A -> B) (i : nat) (l : list A) : list B :=
  match l with
  | [] => []
  | a :: t => f i a :: mapi_from f (S i) t
  end.

Definition in_gap (start length i : nat) : bool :=
  (start <=? i) && (i <? start + length).

(** The mask [df_station[var].isna().values]. *)
Definition is_missing (var : Var) (df : DataFrame) : list bool :=
  map isnan (column var df).

(** The value at index [start - 1], NaN when there is no such row. *)
Definition boundary_before (col : list float) (start : nat) : float :=
  if 0 <? start then nth (start - 1) col nan else nan.

(** The value at index [start + length], NaN when there is no such row. *)
Definition boundary_after (col : list float) (start length : nat) : float :=
  if start + length <? List.length col then nth (start + length) col nan else nan.

(** The profile lookup for the row at [idx], keyed by the station of the
    first row. *)
Definition profile_at (profiles : Profiles) (var : Var) (df : DataFrame) (idx : nat) : float :=
  match nth_error df 0, nth_error df idx with
  | Some row0, Some r => Series_get (profiles var) (station row0, month r, hour r) nan
  | _, _ => nan
  end.

Definition before_offset (profiles : Profiles) (var : Var) (df : DataFrame)
    (start : nat) : float :=
  edge_offset (boundary_before (column var df) start)
              (profile_at profiles var df (start - 1)).

Definition after_offset (profiles : Profiles) (var : Var) (df : DataFrame)
    (start length : nat) : float :=
  edge_offset (boundary_after (column var df) start length)
              (profile_at profiles var df (start + length)).

(** Strategy B before the bounds, for the gap [(start, length)]. *)
Definition diurnal_values (profiles : Profiles) (var : Var) (df : DataFrame)
    (start length : nat) : list float :=
  add_offsets (map (profile_at profiles var df) (seq start length))
              (blend_offsets (before_offset profiles var df start)
                             (after_offset profiles var df start length) length).

(** What the loop body does with a gap: the values it writes and the
    strategy letter, or [None] when the gap is skipped. *)
Definition gap_values (profiles : Profiles) (var : Var) (df : DataFrame)
    (start length : nat) : option (list float * string) :=
  if 24 <? length then None
  else if length <=? 2 then
    match interpolate (boundary_before (column var df) start)
                      (boundary_after (column var df) start length) length with
    | None => None
    | Some interp => Some (enforce_bounds var interp, "A")
    end
  else if forallb isnan (map (profile_at profiles var df) (seq start length)) then None
  else Some (enforce_bounds var (diurnal_values profiles var df start length), "B").

Definition write_cells (var : Var) (start : nat) (vals : list float)
    (df : DataFrame) : DataFrame :=
  mapi_from (fun i r =>
               if in_gap start (length vals) i
               then set_cell var (nth (i - start) vals nan) r
               else r)
            0 df.

(** [methods[idx]] after one more tag. *)
Definition add_tag (m tag : string) : string :=
  if negb (m =? "")%string then (m ++ "," ++ tag)%string else tag.

Definition tag_cells (methods : list string) (start length : nat) (tag : string)
    : list string :=
  mapi_from (fun i m => if in_gap start length i then add_tag m tag else m) 0 methods.

Definition tag_of (var : Var) (strategy : string) : string :=
  (var_name var ++ ":" ++ strategy)%string.

(** One iteration of the loop over the gaps of [var], the outcome of the
    gap being computed on the frame [df0]. *)
Definition apply_gap (profiles : Profiles) (var : Var) (df0 : DataFrame)
    (st : State) (gap : nat * nat) : State :=
  match gap_values profiles var df0 (fst gap) (snd gap) with
  | None => st
  | Some (vals, strategy) =>
      (write_cells var (fst gap) vals (fst st),
       tag_cells (snd st) (fst gap) (snd gap) (tag_of var strategy))
  end.

(** The gap of the list that contains index [i]. *)
Definition gap_of (gaps : list (nat * nat)) (i : nat) : option (nat * nat) :=
  find (fun g => in_gap (fst g) (snd g) i) gaps.

(** The outcome for index [i] among the gaps of a list: the value written
    and the strategy letter. *)
Definition outcome_at (profiles : Profiles) (var : Var) (df : DataFrame)
    (gaps : list (nat * nat)) (i : nat) : option (float * string) :=
  match gap_of gaps i with
  | Some (start, length) =>
      match gap_values profiles var df start length with
      | Some (vals, strategy) => Some (nth (i - start) vals nan, strategy)
      | None => None
      end
  | None => None
  end.

(** The value written into cell [(i, var)] and the strategy that produced
    it, or [None] when the run leaves the cell alone. *)
Definition imputed_cell (profiles : Profiles) (var : Var) (df : DataFrame) (i : nat)
    : option (float * string) :=
  outcome_at profiles var df (find_gaps (is_missing var df)) i.

Definition fill_cell (profiles : Profiles) (df : DataFrame) (var : Var) (i : nat)
    (r : Row) : Row :=
  match imputed_cell profiles var df i with
  | Some (v, _) => set_cell var v r
  | None => r
  end.

Definition tag_cell (profiles : Profiles) (df : DataFrame) (var : Var) (i : nat)
    (m : string) : string :=
  match imputed_cell profiles var df i with
  | Some (_, strategy) => add_tag m (tag_of var strategy)
  | None => m
  end.

Definition fill_row (profiles : Profiles) (df : DataFrame) (i : nat) (r : Row) : Row :=
  fill_cell profiles df wind_speed i
    (fill_cell profiles df rh i (fill_cell profiles df temperature i r)).

Definition method_string (profiles : Profiles) (df : DataFrame) (i : nat) : string :=
  tag_cell profiles df wind_speed i
    (tag_cell profiles df rh i (tag_cell profiles df temperature i "")).

Definition imputed (profiles : Profiles) (df : DataFrame) : State :=
  (mapi_from (fill_row profiles df) 0 df,
   mapi_from (fun i _ => method_string profiles df i) 0 df).

(** ** Reading a provenance record *)

(** [s.split(sep)] *)
Fixpoint split_on (sep : ascii) (s : string) : list string :=
  match s with
  | EmptyString => [EmptyString]
  | String c s' =>
      if Ascii.eqb c sep then EmptyString :: split_on sep s'
      else match split_on sep s' with
           | [] => [String c EmptyString]
           | w :: ws => String c w :: ws
           end
  end.

(** The entries [variable:strategy] of a record. *)
Definition entries (record : string) : list string :=
  if (record =? "")%string then [] else split_on "," record.

(** The strategy letters a record lists for [var]. *)
Definition strategies_of (record : string) (var : Var) : list string :=
  flat_map (fun e =>
              match split_on ":" e with
              | [name; strategy] =>
                  if (name =? var_name var)%string then [strategy] else []
              | _ => []
              end)
           (entries record).

(** Equality of floats up to the representation of the rational. *)
Definition feq (a b : float) : Prop :=
  match a, b with
  | Some x, Some y => (x == y)%Q
  | None, None => True
  | _, _ => False
  end.

(** The rows that share the metadata the engine reads but never writes. *)
Definition meta (r : Row) : datetime * StationId * Z * Z :=
  (date r, station r, month r, hour r).

(** A maximal run of [true] in a mask. *)
Definition maximal_run (m : list bool) (g : nat * nat) : Prop :=
  1 <= snd g /\
  fst g + snd g <= length m /\
  (forall k, fst g <= k < fst g + snd g -> nth k m false = true) /\
  (forall k, S k = fst g -> nth k m false = false) /\
  nth (fst g + snd g) m false = false.

(** Gaps in increasing order, none starting before [lo], none overlapping
    the next. *)
Fixpoint separated (lo : nat) (gaps : list (nat * nat)) : Prop :=
  match gaps with
  | [] => True
  | g :: t => lo <= fst g /\ separated (fst g + snd g) t
  end.

(** The working frame [df] differs from [df0] at most in cells of [var]
    that are missing in [df0]. *)
Definition fills_only (var : Var) (df0 df : DataFrame) : Prop :=
  map meta df = map meta df0 /\
  forall i, nth i (is_missing var df0) false = false ->
            nth i (column var df) nan = nth i (column var df0) nan.

(** The bounds on one value: [enforce_bounds] is [map (bound var)]. *)
Definition bound (var : Var) (x : float) : float :=
  match var with
  | rh => np_clip 0 (Some 100%Q) x
  | wind_speed => np_clip 0 None x
  | temperature => x
  end.

(** The physical domain of a variable. *)
Definition in_domain (var : Var) (v : Q) : Prop :=
  match var with
  | rh => (0 <= v /\ v <= 100)%Q
  | wind_speed => (0 <= v)%Q
  | temperature => True
  end.

(** The values a binary double holds without overflow in the sums and
    differences of Strategy A. *)
Definition float_range (v : Q) : Prop :=
  (- inject_Z (10 ^ 300) <= v /\ v <= inject_Z (10 ^ 300))%Q.

Definition is_int (a : StationId) : bool :=
  match a with IntId _ => true | StrId _ => false end.

(** The ids are all integers or all strings. *)
Definition one_kind (l : list StationId) : bool :=
  match l with
  | [] => true
  | a :: t => forallb (fun b => Bool.eqb (is_int b) (is_int a)) t
  end.

(** [x] is [d] to two decimals. *)
Definition to_two_decimals (x : float) (d : Q) : Prop :=
  match x with
  | Some v => (d - (5 # 1000) <= v /\ v <= d + (5 # 1000))%Q
  | None => False
  end.

(** ** Example data *)

Definition hourly (h : Z) (t : float) : Row :=
  mkRow (mkDatetime 2015 1 1 h 0) (StrId "S1") t (Some 50%Q) (Some 1%Q) 1 h.

(** A gap of six hours between an observation one degree above its
    profile value and one a degree below. *)
Definition scenario2_df : DataFrame :=
  [hourly 0 (Some 25%Q); hourly 1 None; hourly 2 None; hourly 3 None;
   hourly 4 None; hourly 5 None; hourly 6 None; hourly 7 (Some 24%Q)].

Definition scenario2_profiles : Profiles :=
  fun _ => [((StrId "S1", 1%Z, 0%Z), Some 24%Q); ((StrId "S1", 1%Z, 1%Z), Some 25%Q);
            ((StrId "S1", 1%Z, 2%Z), Some 26%Q); ((StrId "S1", 1%Z, 3%Z), Some 27%Q);
            ((StrId "S1", 1%Z, 4%Z), Some 28%Q); ((StrId "S1", 1%Z, 5%Z), Some 27%Q);
            ((StrId "S1", 1%Z, 6%Z), Some 26%Q); ((StrId "S1", 1%Z, 7%Z), Some 25%Q)].

Definition raw_hourly (h : Z) (t : float) : RawRow :=
  mkRawRow (mkDatetime 2015 1 1 h 0) (StrId "S1") t (Some 50%Q) (Some 1%Q).

(** Two missing hours between the observations 20.0 and 24.0. *)
Definition scenario1_raw : list RawRow :=
  [raw_hourly 0 (Some 20%Q); raw_hourly 1 None; raw_hourly 2 None;
   raw_hourly 3 (Some 24%Q)].

(** A gap of thirty hours between two observations. *)
Definition scenario3_df : DataFrame :=
  hourly 0 (Some 20%Q)
  :: map (fun h => hourly (Z.of_nat h) None) (seq 1 30)
  ++ [hourly 31 (Some 22%Q)].

Definition raw_on (day h : Z) (t : float) : RawRow :=
  mkRawRow (mkDatetime 2015 1 day h 0) (StrId "S1") t (Some 50%Q) (Some 1%Q).

(** Two January days of one station.  Hour 3 is never observed, so the
    profile has no data for it; the second day has a gap of three hours
    that ends on hour 3. *)
Definition partial_raw : list RawRow :=
  [raw_on 1 0 (Some 20%Q); raw_on 1 1 (Some 21%Q); raw_on 1 2 (Some 22%Q);
   raw_on 1 3 None; raw_on 1 4 (Some 24%Q);
   raw_on 2 0 (Some 20%Q); raw_on 2 1 None; raw_on 2 2 None;
   raw_on 2 3 None; raw_on 2 4 (Some 24%Q)].

Definition partial_df : DataFrame := load_and_clean partial_raw.

Definition partial_profiles : Profiles := build_diurnal_profiles partial_df.

(** A gap of three hours in relative humidity whose profile plus offset
    leaves the domain: 104.3, 94.3 and 103.3 before the bounds. *)
Definition scenario4_df : DataFrame :=
  map (fun hv => mkRow (mkDatetime 2015 1 1 (fst hv) 0) (StrId "S1") (Some 25%Q)
                       (snd hv) (Some 1%Q) 1 (fst hv))
      [(0%Z, Some 100%Q); (1%Z, None); (2%Z, None); (3%Z, None); (4%Z, Some 100%Q)].

Definition scenario4_profiles : Profiles :=
  fun _ => [((StrId "S1", 1%Z, 0%Z), Some (957 # 10)%Q); ((StrId "S1", 1%Z, 1%Z), Some 100%Q);
            ((StrId "S1", 1%Z, 2%Z), Some 90%Q); ((StrId "S1", 1%Z, 3%Z), Some 99%Q);
            ((StrId "S1", 1%Z, 4%Z), Some (957 # 10)%Q)].

(** Consecutive rows are in the order of [row_leb]. *)
Inductive sorted_rows : DataFrame -> Prop :=
| sorted_nil : sorted_rows []
| sorted_one (r : Row) : sorted_rows [r]
| sorted_cons (a b : Row) (l : DataFrame) :
    row_leb a b = true -> sorted_rows (b :: l) -> sorted_rows (a :: b :: l).

(** Wind speeds below the physical domain around two gaps of one hour:
    the first has a boundary value on its right only, the second on both
    sides. *)
Definition negative_wind_df : DataFrame :=
  map (fun hv => mkRow (mkDatetime 2015 1 1 (fst hv) 0) (StrId "S1") (Some 25%Q)
                       (Some 50%Q) (snd hv) 1 (fst hv))
      [(0%Z, None); (1%Z, Some (-2)%Q); (2%Z, None); (3%Z, Some (-4)%Q)].


(** Four rows out of order, two of them with the same timestamp. *)
Definition unordered_raw : list RawRow :=
  [raw_hourly 2 (Some 24%Q); raw_hourly 1 None; raw_hourly 0 (Some 20%Q);
   raw_hourly 1 None].

(* ================================================================== *)
(** * Properties *)
(* ================================================================== *)

(** ** The Result monad *)

Lemma getitem_Ok {A : Type} (l : list A) (i : nat) (d : A) :
  i < length l -> getitem l i = Ok (nth i l d).
Proof.
  intros H. unfold getitem.
  destruct (nth_error l i) as [a|] eqn:E.
  - now rewrite (nth_error_nth _ _ d E).
  - apply nth_error_None in E. lia.
Qed.

Lemma getitem_nth_error {A : Type} (l : list A) (i : nat) (a : A) :
  nth_error l i = Some a -> getitem l i = Ok a.
Proof. intros H. unfold getitem. now rewrite H. Qed.

(** ** find_gaps *)

Section FindGaps.

Variable m : list bool.
Let n := length m.

Lemma find_gaps_inner_spec (fuel i : nat) :
  i <= n -> n - i <= fuel ->
  let j := find_gaps_inner m n i fuel in
  i <= j <= n /\
  (forall k, i <= k < j -> nth k m false = true) /\
  nth j m false = false /\
  (nth i m false = true -> i < j).
Proof.
  revert i. induction fuel as [|fuel IH]; intros i Hi Hf; cbn [find_gaps_inner].
  - assert (i = n) by lia. subst i. repeat split; try lia.
    + apply nth_overflow. fold n. lia.
    + intros H. rewrite nth_overflow in H by (fold n; lia). discriminate.
  - destruct (Nat.ltb_spec i n) as [Hlt|Hge]; cbn [andb].
    + destruct (nth i m false) eqn:Ei.
      * destruct (IH (i + 1)) as (H1 & H2 & H3 & H4); try lia.
        repeat split; try lia; auto.
        intros k Hk. destruct (Nat.eq_dec k i) as [->|]; auto.
        apply H2. lia.
      * repeat split; try lia; auto; try discriminate.
    + assert (i = n) by lia. subst i. repeat split; try lia.
      * apply nth_overflow. fold n. lia.
      * intros H. rewrite nth_overflow in H by (fold n; lia). discriminate.
Qed.

(** The fuel [n] handed to the inner loop is enough: more changes nothing. *)
Lemma find_gaps_inner_fuel (f1 f2 i : nat) :
  i <= n -> n - i <= f1 -> n - i <= f2 ->
  find_gaps_inner m n i f1 = find_gaps_inner m n i f2.
Proof.
  revert f2 i. induction f1 as [|f1 IH]; intros f2 i Hi H1 H2.
  - assert (i = n) by lia. subst i. destruct f2; cbn [find_gaps_inner]; auto.
    now rewrite Nat.ltb_irrefl.
  - destruct f2 as [|f2]; cbn [find_gaps_inner].
    + assert (i = n) by lia. subst i. now rewrite Nat.ltb_irrefl.
    + destruct (Nat.ltb_spec i n); cbn [andb]; auto.
      destruct (nth i m false); auto. apply IH; lia.
Qed.

Lemma find_gaps_outer_app (fuel i : nat) (gaps : list (nat * nat)) :
  find_gaps_outer m n i gaps fuel = gaps ++ find_gaps_outer m n i [] fuel.
Proof.
  revert i gaps. induction fuel as [|fuel IH]; intros i gaps; cbn [find_gaps_outer].
  - now rewrite app_nil_r.
  - destruct (i <? n); [|now rewrite app_nil_r].
    destruct (nth i m false); auto.
    rewrite IH. rewrite (IH _ ([] ++ _)). now rewrite <- app_assoc.
Qed.

Lemma separated_weaken (lo lo' : nat) (gaps : list (nat * nat)) :
  lo' <= lo -> separated lo gaps -> separated lo' gaps.
Proof. destruct gaps; cbn; auto. intros ? [? ?]. split; auto. lia. Qed.

Lemma find_gaps_outer_spec (fuel i : nat) :
  i <= n -> n - i <= fuel ->
  (forall k, S k = i -> nth k m false = true -> nth i m false = false) ->
  let R := find_gaps_outer m n i [] fuel in
  Forall (maximal_run m) R /\
  separated i R /\
  (forall k, i <= k -> nth k m false = true ->
             exists g, In g R /\ in_gap (fst g) (snd g) k = true).
Proof.
  revert i. induction fuel as [|fuel IH]; intros i Hi Hf Hleft; cbn [find_gaps_outer].
  - repeat split; auto. intros k Hk Hm.
    rewrite nth_overflow in Hm by (fold n; lia). discriminate.
  - destruct (Nat.ltb_spec i n) as [Hlt|Hge].
    2:{ repeat split; cbn; auto. intros k Hk Hm.
        rewrite nth_overflow in Hm by (fold n; lia). discriminate. }
    destruct (nth i m false) eqn:Ei.
    + rewrite find_gaps_outer_app. cbn [app].
      destruct (find_gaps_inner_spec n i Hi ltac:(lia)) as ((Hj1 & Hj2) & Hrun & Hend & Hprog).
      specialize (Hprog Ei).
      set (j := find_gaps_inner m n i n) in *.
      destruct (IH j) as (HF & HS & HC); try lia.
      { intros; assumption. }
      split; [|split].
      * constructor; auto. unfold maximal_run; cbn [fst snd].
        replace (i + (j - i)) with j by lia.
        repeat split; try lia; auto.
        intros k Hk. destruct (nth k m false) eqn:Ek; auto.
           specialize (Hleft k Hk Ek). congruence.
      * cbn [separated fst snd]. split; [lia|].
        now replace (i + (j - i)) with j by lia.
      * intros k Hk Hm. destruct (Nat.ltb_spec k j) as [Hkj|Hkj].
        -- exists (i, j - i). split; [now left|]. unfold in_gap; cbn [fst snd].
           apply andb_true_intro; split; [apply Nat.leb_le|apply Nat.ltb_lt]; lia.
        -- destruct (HC k Hkj Hm) as (g & Hg & Hin). exists g. split; auto. now right.
    + destruct (IH (i + 1)) as (HF & HS & HC); try lia.
      { intros k Hk Hm. assert (k = i) by lia. subst k. congruence. }
      repeat split; auto.
      * apply separated_weaken with (lo := i + 1); auto. lia.
      * intros k Hk Hm. apply HC; auto.
        destruct (Nat.eq_dec k i) as [->|]; [congruence|lia].
Qed.

(** The fuel [n] of the outer loop is enough as well. *)
Lemma find_gaps_outer_fuel (f1 f2 i : nat) (gaps : list (nat * nat)) :
  i <= n -> n - i <= f1 -> n - i <= f2 ->
  find_gaps_outer m n i gaps f1 = find_gaps_outer m n i gaps f2.
Proof.
  revert f2 i gaps. induction f1 as [|f1 IH]; intros f2 i gaps Hi H1 H2.
  - assert (i = n) by lia. subst i. destruct f2; cbn [find_gaps_outer]; auto.
    now rewrite Nat.ltb_irrefl.
  - destruct f2 as [|f2]; cbn [find_gaps_outer].
    + assert (i = n) by lia. subst i. now rewrite Nat.ltb_irrefl.
    + destruct (Nat.ltb_spec i n); auto.
      destruct (nth i m false) eqn:Ei.
      * destruct (find_gaps_inner_spec n i Hi ltac:(lia)) as ((Hj1 & Hj2) & _ & _ & Hprog).
        specialize (Hprog Ei). apply IH; lia.
      * apply IH; lia.
Qed.

Lemma find_gaps_spec :
  Forall (maximal_run m) (find_gaps m) /\
  separated 0 (find_gaps m) /\
  (forall k, nth k m false = true ->
             exists g, In g (find_gaps m) /\ in_gap (fst g) (snd g) k = true).
Proof.
  unfold find_gaps. fold n.
  destruct (find_gaps_outer_spec n 0) as (H1 & H2 & H3); try lia.
  repeat split; auto. intros k Hm. apply H3; auto. lia.
Qed.

End FindGaps.

(** ** Lists by position *)

Lemma mapi_from_length {A B : Type} (f : nat -> A -> B) (k : nat) (l : list A) :
  length (mapi_from f k l) = length l.
Proof. revert k. induction l; intros; cbn; auto. Qed.

Lemma nth_error_mapi_from {A B : Type} (f : nat -> A -> B) (k : nat) (l : list A) (i : nat) :
  nth_error (mapi_from f k l) i = option_map (f (k + i)) (nth_error l i).
Proof.
  revert k i. induction l as [|a l IH]; intros k [|i]; cbn; auto.
  - now rewrite Nat.add_0_r.
  - rewrite IH. now replace (S k + i) with (k + S i) by lia.
Qed.

Lemma mapi_from_ext {A B : Type} (f g : nat -> A -> B) (l : list A) :
  (forall i a, nth_error l i = Some a -> f i a = g i a) ->
  mapi_from f 0 l = mapi_from g 0 l.
Proof.
  intros H. apply nth_error_ext. intros i. rewrite !nth_error_mapi_from. cbn.
  destruct (nth_error l i) eqn:E; cbn; auto. now rewrite (H _ _ E).
Qed.

Lemma mapi_from_id {A : Type} (f : nat -> A -> A) (l : list A) :
  (forall i a, nth_error l i = Some a -> f i a = a) ->
  mapi_from f 0 l = l.
Proof.
  intros H. apply nth_error_ext. intros i. rewrite nth_error_mapi_from. cbn.
  destruct (nth_error l i) eqn:E; cbn; auto. now rewrite (H _ _ E).
Qed.

Lemma mapi_from_mapi_from {A B C : Type} (f : nat -> A -> B) (g : nat -> B -> C)
    (l : list A) :
  mapi_from g 0 (mapi_from f 0 l) = mapi_from (fun i a => g i (f i a)) 0 l.
Proof.
  apply nth_error_ext. intros i. rewrite !nth_error_mapi_from. cbn.
  now destruct (nth_error l i).
Qed.

Lemma map_mapi_from {A B C : Type} (f : nat -> A -> B) (g : B -> C) (l : list A) (k : nat) :
  map g (mapi_from f k l) = mapi_from (fun i a => g (f i a)) k l.
Proof. revert k. induction l; intros; cbn; auto. now rewrite IHl. Qed.

Lemma update_length {A : Type} (l : list A) (i : nat) (x : A) :
  length (update l i x) = length l.
Proof. revert i. induction l; intros [|i]; cbn; auto. Qed.

Lemma nth_error_update {A : Type} (l : list A) (i j : nat) (x : A) :
  i < length l ->
  nth_error (update l i x) j = if j =? i then Some x else nth_error l j.
Proof.
  revert i j. induction l as [|a l IH]; intros [|i] [|j] H; cbn in *; try lia; auto.
  apply IH. lia.
Qed.

Lemma in_gap_true (s l i : nat) : in_gap s l i = true <-> s <= i < s + l.
Proof.
  unfold in_gap. rewrite andb_true_iff, Nat.leb_le, Nat.ltb_lt. tauto.
Qed.

Lemma in_gap_false (s l i : nat) : in_gap s l i = false <-> ~ (s <= i < s + l).
Proof.
  rewrite <- in_gap_true. destruct (in_gap s l i); split; congruence.
Qed.

Lemma in_gap_step (s l i : nat) :
  i <> s -> in_gap (S s) l i = in_gap s (S l) i.
Proof.
  intros H. destruct (in_gap s (S l) i) eqn:E.
  - apply in_gap_true in E. apply in_gap_true. lia.
  - apply in_gap_false in E. apply in_gap_false. lia.
Qed.

(** The assignment [df.iloc[indices, col] = values] over a range of rows. *)
Lemma iloc_set_range (var : Var) (vals : list float) (start : nat) (df : DataFrame) :
  start + length vals <= length df ->
  iloc_set df (seq start (length vals)) var vals = Ok (write_cells var start vals df).
Proof.
  intros H. unfold iloc_set. rewrite length_seq, Nat.eqb_refl. cbn [negb].
  revert start df H. induction vals as [|v vals IH]; intros start df H.
  - cbn. unfold write_cells. symmetry. f_equal. apply mapi_from_id.
    intros i a _. cbn [length]. replace (in_gap start 0 i) with false; auto.
    symmetry. apply in_gap_false. lia.
  - cbn [length seq combine foldM fst snd] in *.
    destruct (nth_error df start) as [r|] eqn:Er.
    2:{ apply nth_error_None in Er. lia. }
    rewrite (getitem_nth_error _ _ _ Er). cbn [bind].
    unfold setitem. destruct (Nat.ltb_spec start (length df)); [|lia]. cbn [bind].
    rewrite IH by (rewrite update_length; lia). f_equal.
    unfold write_cells. apply nth_error_ext. intros i.
    rewrite !nth_error_mapi_from, nth_error_update by lia. cbn [Nat.add length].
    destruct (Nat.eqb_spec i start) as [->|Hne].
    + rewrite Er. cbn [option_map].
      replace (in_gap (S start) (length vals) start) with false
        by (symmetry; apply in_gap_false; lia).
      replace (in_gap start (S (length vals)) start) with true
        by (symmetry; apply in_gap_true; lia).
      now rewrite Nat.sub_diag.
    + rewrite in_gap_step by auto.
      destruct (nth_error df i); cbn [option_map]; auto.
      destruct (in_gap start (S (length vals)) i) eqn:E; auto.
      apply in_gap_true in E.
      replace (i - start) with (S (i - S start)) by lia. reflexivity.
Qed.

(** The loop that records the method, over a range of rows. *)
Lemma record_method_range (var : Var) (strategy : string) (length_ start : nat)
    (methods : list string) :
  start + length_ <= length methods ->
  record_method methods (seq start length_) var strategy
  = Ok (tag_cells methods start length_ (tag_of var strategy)).
Proof.
  unfold record_method. fold (tag_of var strategy).
  revert start methods. induction length_ as [|k IH]; intros start methods H.
  - cbn. unfold tag_cells. symmetry. f_equal. apply mapi_from_id.
    intros i a _. replace (in_gap start 0 i) with false; auto.
    symmetry. apply in_gap_false. lia.
  - cbn [seq foldM].
    destruct (nth_error methods start) as [m0|] eqn:Em.
    2:{ apply nth_error_None in Em. lia. }
    rewrite (getitem_nth_error _ _ _ Em). cbn [bind].
    assert (Hstep : (if negb (m0 =? "")%string
                     then setitem methods start (m0 ++ "," ++ tag_of var strategy)%string
                     else setitem methods start (tag_of var strategy))
                    = Ok (update methods start (add_tag m0 (tag_of var strategy)))).
    { unfold add_tag, setitem. destruct (Nat.ltb_spec start (length methods)); [|lia].
      now destruct (negb (m0 =? "")%string). }
    rewrite Hstep. cbn [bind].
    rewrite IH by (rewrite update_length; lia). f_equal.
    unfold tag_cells. apply nth_error_ext. intros i.
    rewrite !nth_error_mapi_from, nth_error_update by lia. cbn [Nat.add].
    destruct (Nat.eqb_spec i start) as [->|Hne].
    + rewrite Em. cbn [option_map].
      replace (in_gap (S start) k start) with false
        by (symmetry; apply in_gap_false; lia).
      replace (in_gap start (S k) start) with true
        by (symmetry; apply in_gap_true; lia).
      reflexivity.
    + now rewrite in_gap_step by auto.
Qed.

(** ** NaN through the numeric helpers *)

Lemma linspace_length (a b : Q) (num : nat) : length (linspace a b num) = num.
Proof. unfold linspace. now rewrite length_map, length_seq. Qed.

Lemma slice_1_m1_length {A : Type} (l : list A) : length (slice_1_m1 l) = length l - 2.
Proof.
  unfold slice_1_m1. destruct l as [|a l]; cbn [tl]; auto.
  destruct l as [|b l] using rev_ind; auto.
  rewrite removelast_last. cbn [length]. rewrite length_app. cbn. lia.
Qed.

Lemma enforce_bounds_length (var : Var) (l : list float) :
  length (enforce_bounds var l) = length l.
Proof. destruct var; cbn; auto; apply length_map. Qed.

Lemma interpolate_length (b a : float) (k : nat) (interp : list float) :
  interpolate b a k = Some interp -> length interp = k.
Proof.
  unfold interpolate. destruct b, a; intros [= <-].
  - rewrite length_map, slice_1_m1_length, linspace_length. lia.
  - apply repeat_length.
  - apply repeat_length.
Qed.

Lemma blend_offsets_length (bo ao : float) (k : nat) :
  length (blend_offsets bo ao k) = k.
Proof.
  unfold blend_offsets. destruct bo, ao; rewrite ?repeat_length; auto.
  now rewrite length_map, linspace_length.
Qed.

Lemma add_offsets_length (pv : list float) (offs : list Q) :
  length offs = length pv -> length (add_offsets pv offs) = length pv.
Proof. intros H. unfold add_offsets. rewrite length_map, length_combine. lia. Qed.

Lemma diurnal_values_length (profiles : Profiles) (var : Var) (df : DataFrame) (s k : nat) :
  length (diurnal_values profiles var df s k) = k.
Proof.
  unfold diurnal_values. rewrite add_offsets_length; rewrite length_map, length_seq; auto.
  apply blend_offsets_length.
Qed.

Lemma isnan_np_clip (lo : Q) (hi : option Q) (x : float) :
  isnan (np_clip lo hi x) = isnan x.
Proof. destruct x; cbn; auto. now destruct hi. Qed.

Lemma map_isnan_enforce_bounds (var : Var) (l : list float) :
  map isnan (enforce_bounds var l) = map isnan l.
Proof.
  destruct var; cbn; auto; rewrite map_map; apply map_ext; intros;
    apply isnan_np_clip.
Qed.

Lemma map_isnan_add_offsets (pv : list float) (offs : list Q) :
  length offs = length pv -> map isnan (add_offsets pv offs) = map isnan pv.
Proof.
  unfold add_offsets. revert offs. induction pv as [|p pv IH]; intros [|o offs] H;
    cbn in *; try lia; auto.
  rewrite IH by lia. now destruct p.
Qed.

Lemma forallb_isnan_map (l : list float) :
  forallb isnan l = forallb (fun b => b) (map isnan l).
Proof. induction l; cbn; auto. now rewrite IHl. Qed.

Lemma forallb_isnan_repeat (k : nat) : forallb isnan (repeat nan k) = true.
Proof. induction k; cbn; auto. Qed.

(** ** The loop body *)

Section GapStep.

Variable profiles : Profiles.
Variable var : Var.
Variable df : DataFrame.

Lemma column_length : length (column var df) = length df.
Proof. apply length_map. Qed.

Lemma getitem_before (s : nat) :
  s <= length df ->
  (if 0 <? s then getitem (column var df) (s - 1) else Ok nan)
  = Ok (boundary_before (column var df) s).
Proof.
  intros H. unfold boundary_before. destruct (Nat.ltb_spec 0 s); auto.
  apply getitem_Ok. rewrite column_length. lia.
Qed.

Lemma getitem_after (s k : nat) :
  (if s + k <? length df then getitem (column var df) (s + k) else Ok nan)
  = Ok (boundary_after (column var df) s k).
Proof.
  unfold boundary_after. rewrite column_length.
  destruct (Nat.ltb_spec (s + k) (length df)); auto.
  apply getitem_Ok. rewrite column_length. lia.
Qed.

Lemma rows_of_range (row0 : Row) (k s : nat) :
  nth_error df 0 = Some row0 ->
  s + k <= length df ->
  exists rows,
    mapM (getitem df) (seq s k) = Ok rows /\
    lookup_profiles profiles var (station row0) (map month rows) (map hour rows)
    = map (profile_at profiles var df) (seq s k).
Proof.
  intros H0. revert s. induction k as [|k IH]; intros s H.
  - exists []. split; reflexivity.
  - destruct (nth_error df s) as [r|] eqn:Er.
    2:{ apply nth_error_None in Er. lia. }
    destruct (IH (S s)) as (rows & Hrows & Hprof); [lia|].
    exists (r :: rows). cbn [seq mapM].
    rewrite (getitem_nth_error _ _ _ Er). cbn [bind]. rewrite Hrows. cbn [bind].
    split; auto.
    unfold lookup_profiles in *. cbn [map combine fst snd]. rewrite Hprof.
    f_equal. unfold profile_at. now rewrite H0, Er.
Qed.

Lemma edge_profile_ok (row0 : Row) (val : float) (exists_ : bool) (idx : nat) :
  nth_error df 0 = Some row0 ->
  (exists_ = true -> idx < length df) ->
  edge_profile df profiles var (station row0) val exists_ idx
  = Ok (if negb (isnan val) && exists_ then profile_at profiles var df idx else nan).
Proof.
  intros H0 Hidx. unfold edge_profile.
  destruct (negb (isnan val) && exists_) eqn:E; auto.
  apply andb_true_iff in E. destruct E as [_ ->].
  destruct (nth_error df idx) as [r|] eqn:Er.
  2:{ apply nth_error_None in Er. specialize (Hidx eq_refl). lia. }
  rewrite (getitem_nth_error _ _ _ Er). cbn [bind].
  unfold profile_at. now rewrite H0, Er.
Qed.

Lemma strategy_b_result_range (s k : nat) :
  1 <= k -> s + k <= length df ->
  strategy_b_result df (seq s k) var profiles
  = Ok (if forallb isnan (map (profile_at profiles var df) (seq s k)) then None
        else Some (diurnal_values profiles var df s k)).
Proof.
  intros Hk Hr. unfold strategy_b_result.
  destruct (nth_error df 0) as [row0|] eqn:E0.
  2:{ apply nth_error_None in E0. lia. }
  rewrite (getitem_nth_error _ _ _ E0). cbn [bind].
  destruct (rows_of_range row0 k s E0 Hr) as (rows & Hrows & Hprof).
  rewrite Hrows. cbn [bind]. rewrite Hprof.
  destruct (forallb isnan (map (profile_at profiles var df) (seq s k))); auto.
  rewrite length_seq.
  rewrite (getitem_Ok (seq s k) 0 0) by (rewrite length_seq; lia).
  rewrite (getitem_Ok (seq s k) (k - 1) 0) by (rewrite length_seq; lia).
  rewrite !seq_nth by lia. cbn [bind].
  replace (s + 0) with s by lia.
  replace (s + (k - 1) + 1) with (s + k) by lia.
  rewrite getitem_before by lia. cbn [bind].
  rewrite column_length, getitem_after. cbn [bind].
  rewrite (edge_profile_ok row0) by (auto; intros H%Nat.ltb_lt; lia). cbn [bind].
  rewrite (edge_profile_ok row0) by (auto; intros H%Nat.ltb_lt; lia). cbn [bind].
  do 2 f_equal. unfold diurnal_values. f_equal. f_equal.
  - unfold before_offset, boundary_before.
    destruct (0 <? s); auto. now rewrite andb_true_r; destruct (nth (s - 1) (column var df) nan).
  - unfold after_offset, boundary_after. rewrite column_length.
    destruct (s + k <? length df); auto.
    now rewrite andb_true_r; destruct (nth (s + k) (column var df) nan).
Qed.

Lemma impute_gap_strategy_b_range (s k : nat) :
  1 <= k -> s + k <= length df ->
  impute_gap_strategy_b df (seq s k) var profiles
  = Ok (if forallb isnan (map (profile_at profiles var df) (seq s k))
        then repeat nan k
        else enforce_bounds var (diurnal_values profiles var df s k)).
Proof.
  intros Hk Hr. unfold impute_gap_strategy_b.
  rewrite strategy_b_result_range by auto. cbn [bind]. rewrite length_seq.
  now destruct (forallb isnan (map (profile_at profiles var df) (seq s k))).
Qed.

Lemma forallb_isnan_filled (s k : nat) :
  forallb isnan (enforce_bounds var (diurnal_values profiles var df s k))
  = forallb isnan (map (profile_at profiles var df) (seq s k)).
Proof.
  rewrite !forallb_isnan_map, map_isnan_enforce_bounds. unfold diurnal_values.
  rewrite map_isnan_add_offsets; auto.
  now rewrite blend_offsets_length, length_map, length_seq.
Qed.

Lemma impute_station_gap_ok (methods : list string) (s k : nat) :
  1 <= k -> s + k <= length df -> length methods = length df ->
  impute_station_gap profiles (length df) var (df, methods) (s, k)
  = Ok (apply_gap profiles var df (df, methods) (s, k)).
Proof.
  intros Hk Hr Hm. unfold impute_station_gap, apply_gap, gap_values. cbn [fst snd].
  destruct (24 <? k); auto.
  destruct (k <=? 2).
  - rewrite getitem_before by lia. cbn [bind]. rewrite getitem_after. cbn [bind].
    destruct (interpolate _ _ k) as [interp|] eqn:Ei; auto.
    apply interpolate_length in Ei.
    pose proof (enforce_bounds_length var interp) as Hl.
    rewrite <- Ei at 1. rewrite <- Hl at 1.
    rewrite iloc_set_range by (rewrite Hl, Ei; lia). cbn [bind].
    rewrite record_method_range by lia. reflexivity.
  - rewrite impute_gap_strategy_b_range by auto. cbn [bind].
    destruct (forallb isnan (map (profile_at profiles var df) (seq s k))) eqn:Ep.
    + now rewrite forallb_isnan_repeat.
    + rewrite forallb_isnan_filled, Ep.
      pose proof (diurnal_values_length profiles var df s k) as Hd.
      pose proof (enforce_bounds_length var (diurnal_values profiles var df s k)) as Hl.
      rewrite Hd in Hl. rewrite <- Hl at 1.
      rewrite iloc_set_range by (rewrite Hl; lia). cbn [bind].
      rewrite record_method_range by lia. reflexivity.
Qed.

End GapStep.

(** ** Writing cells *)

Lemma meta_set_cell (var : Var) (x : float) (r : Row) : meta (set_cell var x r) = meta r.
Proof. now destruct var. Qed.

Lemma cell_set_cell_other (var var' : Var) (x : float) (r : Row) :
  var' <> var -> cell var' (set_cell var x r) = cell var' r.
Proof. destruct var, var'; intros H; try reflexivity; congruence. Qed.

Lemma meta_write_cells (var : Var) (s : nat) (vals : list float) (df : DataFrame) :
  map meta (write_cells var s vals df) = map meta df.
Proof.
  unfold write_cells. rewrite map_mapi_from.
  transitivity (mapi_from (fun (_ : nat) r => meta r) 0 df).
  - apply mapi_from_ext. intros i a _.
    destruct (in_gap s (length vals) i); auto using meta_set_cell.
  - generalize 0. induction df; intros; cbn; auto. now rewrite IHdf.
Qed.

Lemma nth_column (var : Var) (df : DataFrame) (i : nat) :
  nth i (column var df) nan = match nth_error df i with
                              | Some r => cell var r
                              | None => nan
                              end.
Proof.
  unfold column. destruct (nth_error df i) as [r|] eqn:E.
  - apply nth_error_nth. now rewrite nth_error_map, E.
  - apply nth_overflow. rewrite length_map. now apply nth_error_None.
Qed.

Lemma nth_column_write_cells (var var' : Var) (s : nat) (vals : list float)
    (df : DataFrame) (i : nat) :
  nth i (column var' (write_cells var s vals df)) nan
  = match nth_error df i with
    | Some r =>
        if in_gap s (length vals) i
        then cell var' (set_cell var (nth (i - s) vals nan) r)
        else cell var' r
    | None => nan
    end.
Proof.
  rewrite nth_column. unfold write_cells. rewrite nth_error_mapi_from. cbn [Nat.add].
  destruct (nth_error df i); cbn [option_map]; auto.
  now destruct (in_gap s (length vals) i).
Qed.

(** ** The outcome of a gap depends on little *)

Lemma profile_at_ext (profiles : Profiles) (var : Var) (df df' : DataFrame) (i : nat) :
  map meta df' = map meta df ->
  profile_at profiles var df' i = profile_at profiles var df i.
Proof.
  intros H. unfold profile_at.
  assert (Hn : forall j, option_map meta (nth_error df' j) = option_map meta (nth_error df j)).
  { intros j. now rewrite <- !nth_error_map, H. }
  pose proof (Hn 0) as H0. pose proof (Hn i) as Hi.
  destruct (nth_error df' 0) as [a'|], (nth_error df 0) as [a|]; try discriminate; auto.
  destruct (nth_error df' i) as [b'|], (nth_error df i) as [b|]; try discriminate; auto.
  cbn in H0, Hi. unfold meta in H0, Hi. now inversion H0; inversion Hi.
Qed.

Lemma gap_values_ext (profiles : Profiles) (var : Var) (df df' : DataFrame) (s k : nat) :
  map meta df' = map meta df ->
  boundary_before (column var df') s = boundary_before (column var df) s ->
  boundary_after (column var df') s k = boundary_after (column var df) s k ->
  gap_values profiles var df' s k = gap_values profiles var df s k.
Proof.
  intros Hm Hb Ha. unfold gap_values, diurnal_values, before_offset, after_offset.
  rewrite Hb, Ha.
  rewrite (map_ext (profile_at profiles var df') (profile_at profiles var df))
    by (intros; now apply profile_at_ext).
  now rewrite !(profile_at_ext profiles var df df') by auto.
Qed.

Lemma gap_values_length (profiles : Profiles) (var : Var) (df : DataFrame) (s k : nat)
    (vals : list float) (strategy : string) :
  gap_values profiles var df s k = Some (vals, strategy) -> length vals = k.
Proof.
  unfold gap_values. destruct (24 <? k); [discriminate|].
  destruct (k <=? 2).
  - destruct (interpolate _ _ k) eqn:Ei; intros [= <- <-].
    rewrite enforce_bounds_length. eauto using interpolate_length.
  - destruct (forallb _ _); intros [= <- <-].
    now rewrite enforce_bounds_length, diurnal_values_length.
Qed.

(** ** The loop over the gaps of one variable *)

Section VarLoop.

Variable profiles : Profiles.
Variable var : Var.
Variable df0 : DataFrame.

Lemma fills_only_length (df : DataFrame) : fills_only var df0 df -> length df = length df0.
Proof. intros [H _]. now rewrite <- (length_map meta df), H, length_map. Qed.

Lemma is_missing_length : length (is_missing var df0) = length df0.
Proof. unfold is_missing. now rewrite length_map, column_length. Qed.

Lemma fills_only_gap_values (df : DataFrame) (g : nat * nat) :
  fills_only var df0 df -> maximal_run (is_missing var df0) g ->
  gap_values profiles var df (fst g) (snd g)
  = gap_values profiles var df0 (fst g) (snd g).
Proof.
  intros Hf (Hk & Hr & Hrun & Hleft & Hright).
  pose proof (fills_only_length df Hf) as Hlen. destruct Hf as [Hm Hc].
  apply gap_values_ext; auto.
  - unfold boundary_before. destruct (Nat.ltb_spec 0 (fst g)); auto.
    apply Hc, Hleft. lia.
  - unfold boundary_after. rewrite !column_length, Hlen.
    destruct (_ <? _); auto.
Qed.

Lemma fills_only_apply_gap (df : DataFrame) (methods : list string) (g : nat * nat) :
  fills_only var df0 df -> maximal_run (is_missing var df0) g ->
  fills_only var df0 (fst (apply_gap profiles var df0 (df, methods) g)).
Proof.
  intros Hf (Hk & Hr & Hrun & Hleft & Hright). unfold apply_gap.
  destruct (gap_values profiles var df0 (fst g) (snd g)) as [[vals strategy]|] eqn:Eg;
    cbn [fst]; auto.
  apply gap_values_length in Eg. destruct Hf as [Hm Hc]. split.
  - now rewrite meta_write_cells.
  - intros i Hi. rewrite nth_column_write_cells, <- Hc, nth_column by auto.
    destruct (nth_error df i); auto.
    destruct (in_gap (fst g) (length vals) i) eqn:E; auto.
    rewrite Eg in E. apply in_gap_true in E. rewrite Hrun in Hi by auto. discriminate.
Qed.

Lemma apply_gap_methods_length (st : State) (g : nat * nat) :
  length (snd (apply_gap profiles var df0 st g)) = length (snd st).
Proof.
  unfold apply_gap. destruct (gap_values _ _ _ _ _) as [[vals strategy]|]; auto.
  cbn [snd]. apply mapi_from_length.
Qed.

(** The loop of the code computes every gap on the working frame; the
    outcome is the one computed on the frame the loop started with. *)
Lemma gaps_loop_ok (gaps : list (nat * nat)) (df : DataFrame) (methods : list string) :
  Forall (maximal_run (is_missing var df0)) gaps ->
  fills_only var df0 df -> length methods = length df0 ->
  foldM (impute_station_gap profiles (length df0) var) gaps (df, methods)
  = Ok (fold_left (apply_gap profiles var df0) gaps (df, methods)).
Proof.
  intros HF. revert df methods. induction HF as [|g gaps Hg HF IH]; intros df methods Hf Hm.
  - reflexivity.
  - cbn [foldM fold_left].
    pose proof (fills_only_length df Hf) as Hlen.
    pose proof Hg as (Hk & Hr & _). rewrite is_missing_length in Hr.
    destruct g as [s k]. cbn [fst snd] in *.
    rewrite <- Hlen at 1.
    rewrite impute_station_gap_ok by lia. cbn [bind].
    assert (Heq : apply_gap profiles var df (df, methods) (s, k)
                  = apply_gap profiles var df0 (df, methods) (s, k)).
    { unfold apply_gap. now rewrite (fills_only_gap_values df (s, k)). }
    rewrite Heq.
    pose proof (fills_only_apply_gap df methods (s, k) Hf Hg) as Hf'.
    pose proof (apply_gap_methods_length (df, methods) (s, k)) as Hm'.
    destruct (apply_gap profiles var df0 (df, methods) (s, k)) as [df' methods'].
    cbn [fst snd] in *. apply IH; auto. lia.
Qed.

Lemma gap_of_separated (lo i : nat) (gaps : list (nat * nat)) :
  separated lo gaps -> i < lo -> gap_of gaps i = None.
Proof.
  revert lo. induction gaps as [|g gaps IH]; intros lo Hs Hi; cbn; auto.
  destruct Hs as [H1 H2].
  replace (in_gap (fst g) (snd g) i) with false
    by (symmetry; apply in_gap_false; lia).
  apply (IH (fst g + snd g)); auto. lia.
Qed.

(** The state after the loop, by position. *)
Lemma fold_apply_gap (lo : nat) (gaps : list (nat * nat)) (df : DataFrame)
    (methods : list string) :
  separated lo gaps ->
  fold_left (apply_gap profiles var df0) gaps (df, methods)
  = (mapi_from (fun i r => match outcome_at profiles var df0 gaps i with
                           | Some (v, _) => set_cell var v r
                           | None => r
                           end) 0 df,
     mapi_from (fun i m => match outcome_at profiles var df0 gaps i with
                           | Some (_, strategy) => add_tag m (tag_of var strategy)
                           | None => m
                           end) 0 methods).
Proof.
  revert lo df methods. induction gaps as [|g gaps IH]; intros lo df methods Hs.
  - cbn. now rewrite !mapi_from_id.
  - destruct Hs as [H1 H2]. cbn [fold_left]. unfold apply_gap at 2.
    assert (Hsplit : forall i,
               outcome_at profiles var df0 (g :: gaps) i
               = if in_gap (fst g) (snd g) i
                 then match gap_values profiles var df0 (fst g) (snd g) with
                      | Some (vals, strategy) => Some (nth (i - fst g) vals nan, strategy)
                      | None => None
                      end
                 else outcome_at profiles var df0 gaps i).
    { intros i. unfold outcome_at, gap_of. cbn [find].
      destruct (in_gap (fst g) (snd g) i); auto. now destruct g. }
    assert (Hnone : forall i, in_gap (fst g) (snd g) i = true ->
                              outcome_at profiles var df0 gaps i = None).
    { intros i Hi. apply in_gap_true in Hi. unfold outcome_at.
      now rewrite (gap_of_separated (fst g + snd g)) by (auto; lia). }
    destruct (gap_values profiles var df0 (fst g) (snd g)) as [[vals strategy]|] eqn:Eg.
    + pose proof (gap_values_length _ _ _ _ _ _ _ Eg) as Hl.
      rewrite (IH (fst g + snd g)) by auto. unfold write_cells, tag_cells.
      rewrite !mapi_from_mapi_from. f_equal; apply mapi_from_ext; intros i a _;
        rewrite Hsplit, ?Hl; destruct (in_gap (fst g) (snd g) i) eqn:E; auto;
        now rewrite (Hnone i E).
    + rewrite (IH (fst g + snd g)) by auto.
      f_equal; apply mapi_from_ext; intros i a _;
        rewrite Hsplit; destruct (in_gap (fst g) (snd g) i) eqn:E; auto;
        now rewrite (Hnone i E).
Qed.

Lemma fills_only_refl : fills_only var df0 df0.
Proof. split; auto. Qed.

(** One pass of [for var in IMPUTE_VARS], started on [df0]. *)
Lemma impute_station_var_ok (methods : list string) :
  length methods = length df0 ->
  impute_station_var profiles (length df0) (df0, methods) var
  = Ok (mapi_from (fill_cell profiles df0 var) 0 df0,
        mapi_from (tag_cell profiles df0 var) 0 methods).
Proof.
  intros Hm. unfold impute_station_var. cbn [fst].
  fold (is_missing var df0).
  destruct (find_gaps_spec (is_missing var df0)) as (HF & HS & _).
  rewrite gaps_loop_ok by (auto using fills_only_refl).
  now rewrite (fold_apply_gap 0) by auto.
Qed.

End VarLoop.

(** ** The whole of impute_station *)

Lemma imputed_cell_ext (profiles : Profiles) (var : Var) (df df' : DataFrame) (i : nat) :
  map meta df' = map meta df -> column var df' = column var df ->
  imputed_cell profiles var df' i = imputed_cell profiles var df i.
Proof.
  intros Hm Hc. unfold imputed_cell, outcome_at, is_missing. rewrite Hc.
  destruct (gap_of _ i) as [[s k]|]; auto.
  rewrite (gap_values_ext profiles var df df'); auto; now rewrite Hc.
Qed.

Lemma meta_fill_cell (profiles : Profiles) (df0 : DataFrame) (var : Var) (df : DataFrame) :
  map meta (mapi_from (fill_cell profiles df0 var) 0 df) = map meta df.
Proof.
  rewrite map_mapi_from.
  transitivity (mapi_from (fun (_ : nat) r => meta r) 0 df).
  - apply mapi_from_ext. intros i a _. unfold fill_cell.
    destruct (imputed_cell profiles var df0 i) as [[v s]|]; auto using meta_set_cell.
  - generalize 0. induction df; intros; cbn; auto. now rewrite IHdf.
Qed.

Lemma column_fill_cell_other (profiles : Profiles) (df0 : DataFrame) (var var' : Var)
    (df : DataFrame) :
  var' <> var ->
  column var' (mapi_from (fill_cell profiles df0 var) 0 df) = column var' df.
Proof.
  intros Hne. unfold column. rewrite map_mapi_from.
  transitivity (mapi_from (fun (_ : nat) r => cell var' r) 0 df).
  - apply mapi_from_ext. intros i a _. unfold fill_cell.
    destruct (imputed_cell profiles var df0 i) as [[v s]|]; auto using cell_set_cell_other.
  - generalize 0. induction df; intros; cbn; auto. now rewrite IHdf.
Qed.

(** [impute_station] raises nothing and returns the frame and the records
    described by [imputed]. *)
Lemma impute_station_ok (df : DataFrame) (profiles : Profiles) :
  impute_station df profiles = Ok (imputed profiles df).
Proof.
  unfold impute_station, IMPUTE_VARS. cbn [foldM].
  rewrite impute_station_var_ok by apply repeat_length. cbn [bind].
  set (df1 := mapi_from (fill_cell profiles df temperature) 0 df).
  set (ms1 := mapi_from (tag_cell profiles df temperature) 0 (repeat ""%string (length df))).
  assert (Hl1 : length df1 = length df) by apply mapi_from_length.
  assert (Hm1 : map meta df1 = map meta df) by apply meta_fill_cell.
  rewrite <- Hl1 at 1.
  rewrite impute_station_var_ok
    by (unfold ms1; now rewrite mapi_from_length, repeat_length). cbn [bind].
  set (df2 := mapi_from (fill_cell profiles df1 rh) 0 df1).
  set (ms2 := mapi_from (tag_cell profiles df1 rh) 0 ms1).
  assert (Hl2 : length df2 = length df) by (unfold df2; now rewrite mapi_from_length).
  assert (Hm2 : map meta df2 = map meta df) by (unfold df2; now rewrite meta_fill_cell).
  rewrite <- Hl2 at 1.
  rewrite impute_station_var_ok
    by (unfold ms2, ms1; now rewrite !mapi_from_length, repeat_length). cbn [bind].
  assert (Hc1 : forall i, imputed_cell profiles rh df1 i = imputed_cell profiles rh df i).
  { intros i. apply imputed_cell_ext; auto.
    apply column_fill_cell_other. discriminate. }
  assert (Hc2 : forall i, imputed_cell profiles wind_speed df2 i
                          = imputed_cell profiles wind_speed df i).
  { intros i. apply imputed_cell_ext; auto. unfold df2.
    rewrite column_fill_cell_other by discriminate.
    apply column_fill_cell_other. discriminate. }
  assert (Hf1 : forall l, mapi_from (fill_cell profiles df1 rh) 0 l
                          = mapi_from (fill_cell profiles df rh) 0 l).
  { intros l. apply mapi_from_ext. intros i a _. unfold fill_cell. now rewrite Hc1. }
  assert (Hf2 : forall l, mapi_from (fill_cell profiles df2 wind_speed) 0 l
                          = mapi_from (fill_cell profiles df wind_speed) 0 l).
  { intros l. apply mapi_from_ext. intros i a _. unfold fill_cell. now rewrite Hc2. }
  assert (Ht1 : forall l, mapi_from (tag_cell profiles df1 rh) 0 l
                          = mapi_from (tag_cell profiles df rh) 0 l).
  { intros l. apply mapi_from_ext. intros i a _. unfold tag_cell. now rewrite Hc1. }
  assert (Ht2 : forall l, mapi_from (tag_cell profiles df2 wind_speed) 0 l
                          = mapi_from (tag_cell profiles df wind_speed) 0 l).
  { intros l. apply mapi_from_ext. intros i a _. unfold tag_cell. now rewrite Hc2. }
  rewrite Hf2, Ht2. unfold ms2, df2. rewrite Hf1, Ht1. unfold ms1, df1.
  unfold imputed. f_equal. f_equal.
  - now rewrite !mapi_from_mapi_from.
  - rewrite !mapi_from_mapi_from.
    apply nth_error_ext. intros i. rewrite !nth_error_mapi_from. cbn [Nat.add].
    destruct (Nat.ltb_spec i (length df)) as [Hi|Hi].
    + rewrite (nth_error_repeat _ Hi).
      destruct (nth_error df i) eqn:E; [|apply nth_error_None in E; lia].
      reflexivity.
    + replace (nth_error (repeat ""%string (length df)) i) with (@None string)
        by (symmetry; apply nth_error_None; rewrite repeat_length; lia).
      replace (nth_error df i) with (@None Row)
        by (symmetry; now apply nth_error_None).
      reflexivity.
Qed.

(** ** Reading the result by cell *)

Lemma gap_of_in (lo : nat) (gaps : list (nat * nat)) (g : nat * nat) (i : nat) :
  separated lo gaps -> In g gaps -> in_gap (fst g) (snd g) i = true ->
  gap_of gaps i = Some g.
Proof.
  revert lo. induction gaps as [|g0 gaps IH]; intros lo Hs Hin Hi; [easy|].
  destruct Hs as [H1 H2]. cbn [gap_of find].
  destruct (in_gap (fst g0) (snd g0) i) eqn:E.
  - destruct Hin as [->|Hin]; auto.
    apply in_gap_true in E.
    rewrite (gap_of_separated (fst g0 + snd g0)) in IH by (auto; lia).
    specialize (IH _ H2 Hin Hi). discriminate.
  - destruct Hin as [->|Hin]; [congruence|]. now apply (IH (fst g0 + snd g0)).
Qed.

Lemma gap_of_Some (gaps : list (nat * nat)) (g : nat * nat) (i : nat) :
  gap_of gaps i = Some g -> In g gaps /\ in_gap (fst g) (snd g) i = true.
Proof. intros H. now apply find_some in H. Qed.

Section Cells.

Variable profiles : Profiles.
Variable df : DataFrame.

Lemma imputed_cell_in_gap (var : Var) (s k i : nat) :
  In (s, k) (find_gaps (is_missing var df)) -> s <= i < s + k ->
  imputed_cell profiles var df i
  = match gap_values profiles var df s k with
    | Some (vals, strategy) => Some (nth (i - s) vals nan, strategy)
    | None => None
    end.
Proof.
  intros Hin Hi. unfold imputed_cell, outcome_at.
  destruct (find_gaps_spec (is_missing var df)) as (_ & HS & _).
  now rewrite (gap_of_in 0 _ (s, k)) by (auto; now apply in_gap_true).
Qed.

Lemma imputed_cell_Some (var : Var) (i : nat) (v : float) (strategy : string) :
  imputed_cell profiles var df i = Some (v, strategy) ->
  exists s k vals,
    In (s, k) (find_gaps (is_missing var df)) /\ s <= i < s + k /\
    gap_values profiles var df s k = Some (vals, strategy) /\
    v = nth (i - s) vals nan.
Proof.
  unfold imputed_cell, outcome_at.
  destruct (gap_of _ i) as [[s k]|] eqn:Eg; [|discriminate].
  apply gap_of_Some in Eg. destruct Eg as [Hin Hi]. apply in_gap_true in Hi.
  destruct (gap_values profiles var df s k) as [[vals str]|] eqn:Ev; [|discriminate].
  intros [= <- <-]. exists s, k, vals. auto.
Qed.


Lemma cell_fill_row (var : Var) (i : nat) (r : Row) :
  cell var (fill_row profiles df i r)
  = match imputed_cell profiles var df i with
    | Some (v, _) => v
    | None => cell var r
    end.
Proof.
  unfold fill_row, fill_cell.
  destruct var;
    destruct (imputed_cell profiles temperature df i) as [[v1 s1]|],
             (imputed_cell profiles rh df i) as [[v2 s2]|],
             (imputed_cell profiles wind_speed df i) as [[v3 s3]|];
    reflexivity.
Qed.


Lemma imputed_length : length (fst (imputed profiles df)) = length df.
Proof. apply mapi_from_length. Qed.

Lemma imputed_methods_length : length (snd (imputed profiles df)) = length df.
Proof. apply mapi_from_length. Qed.


(** The cell [(i, var)] of the returned frame. *)
Lemma imputed_column (var : Var) (i : nat) :
  i < length df ->
  nth i (column var (fst (imputed profiles df))) nan
  = match imputed_cell profiles var df i with
    | Some (v, _) => v
    | None => nth i (column var df) nan
    end.
Proof.
  intros Hi. rewrite !nth_column. unfold imputed. cbn [fst].
  rewrite nth_error_mapi_from. cbn [Nat.add].
  destruct (nth_error df i) as [r|] eqn:E; [|apply nth_error_None in E; lia].
  cbn [option_map]. apply cell_fill_row.
Qed.

(** The record of row [i]. *)
Lemma imputed_method (i : nat) :
  i < length df ->
  nth i (snd (imputed profiles df)) ""%string = method_string profiles df i.
Proof.
  intros Hi. apply nth_error_nth. unfold imputed. cbn [snd].
  rewrite nth_error_mapi_from.
  destruct (nth_error df i) eqn:E; [reflexivity|apply nth_error_None in E; lia].
Qed.

Lemma gap_in_range (var : Var) (s k : nat) :
  In (s, k) (find_gaps (is_missing var df)) ->
  1 <= k /\ s + k <= length df /\
  (forall i, s <= i < s + k -> nth i (column var df) nan = None) /\
  (0 < s -> exists v, nth (s - 1) (column var df) nan = Some v) /\
  (s + k < length df -> exists v, nth (s + k) (column var df) nan = Some v).
Proof.
  intros Hin. destruct (find_gaps_spec (is_missing var df)) as (HF & _).
  rewrite Forall_forall in HF. destruct (HF _ Hin) as (Hk & Hr & Hrun & Hl & Hrt).
  cbn [fst snd] in *. rewrite is_missing_length in Hr.
  assert (Hmask : forall j, j < length df ->
                            nth j (is_missing var df) false
                            = isnan (nth j (column var df) nan)).
  { intros j Hj. unfold is_missing.
    rewrite (nth_indep _ false (isnan nan)) by (now rewrite length_map, column_length).
    apply map_nth. }
  repeat split; auto.
  - intros i Hi. specialize (Hrun i Hi). rewrite Hmask in Hrun by lia.
    now destruct (nth i (column var df) nan).
  - intros Hs. specialize (Hl (s - 1) ltac:(lia)). rewrite Hmask in Hl by lia.
    destruct (nth (s - 1) (column var df) nan); [eauto|discriminate].
  - intros Hs. rewrite Hmask in Hrt by lia.
    destruct (nth (s + k) (column var df) nan); [eauto|discriminate].
Qed.

Lemma is_missing_nth (var : Var) (i : nat) :
  nth i (is_missing var df) false = true <-> (i < length df /\ nth i (column var df) nan = None).
Proof.
  unfold is_missing. destruct (Nat.ltb_spec i (length df)) as [Hi|Hi].
  - rewrite (nth_indep _ false (isnan nan)) by (now rewrite length_map, column_length).
    rewrite map_nth. destruct (nth i (column var df) nan); cbn; split; intros; try easy.
  - rewrite nth_overflow by (now rewrite length_map, column_length).
    split; [discriminate|]. intros [? _]. lia.
Qed.

End Cells.

(** ** Values by position *)

Lemma nth_map_lt {A B : Type} (f : A -> B) (l : list A) (i : nat) (d : A) (d' : B) :
  i < length l -> nth i (map f l) d' = f (nth i l d).
Proof.
  intros H. rewrite (nth_indep _ d' (f d)) by (now rewrite length_map). apply map_nth.
Qed.

Lemma nth_linspace (a b : Q) (num i : nat) :
  i < num ->
  nth i (linspace a b num) 0%Q
  = if (S i =? num) && (1 <? num) then b
    else (a + inject_Z (Z.of_nat i) * ((b - a) / inject_Z (Z.of_nat (num - 1))))%Q.
Proof.
  intros H. unfold linspace.
  rewrite (nth_map_lt _ _ _ 0) by (now rewrite length_seq).
  now rewrite seq_nth by auto.
Qed.

Lemma enforce_bounds_map (var : Var) (l : list float) :
  enforce_bounds var l = map (bound var) l.
Proof. destruct var; cbn; auto. symmetry. apply map_id. Qed.

Lemma bound_nan (var : Var) : bound var nan = nan.
Proof. now destruct var. Qed.

Lemma nth_enforce_bounds (var : Var) (l : list float) (i : nat) :
  nth i (enforce_bounds var l) nan = bound var (nth i l nan).
Proof.
  rewrite enforce_bounds_map. rewrite <- (bound_nan var) at 1. apply map_nth.
Qed.

Lemma nth_add_offsets (pv : list float) (offs : list Q) (i : nat) :
  length offs = length pv ->
  nth i (add_offsets pv offs) nan = fadd (nth i pv nan) (Some (nth i offs 0%Q)).
Proof.
  intros H. unfold add_offsets.
  change nan with ((fun po : float * Q => fadd (fst po) (Some (snd po))) (nan, 0%Q)) at 1.
  rewrite map_nth, combine_nth by auto. reflexivity.
Qed.

Lemma nth_diurnal_values (profiles : Profiles) (var : Var) (df : DataFrame) (s k i : nat) :
  i < k ->
  nth i (diurnal_values profiles var df s k) nan
  = fadd (profile_at profiles var df (s + i))
         (Some (nth i (blend_offsets (before_offset profiles var df s)
                                     (after_offset profiles var df s k) k) 0%Q)).
Proof.
  intros H. unfold diurnal_values.
  rewrite nth_add_offsets by (now rewrite blend_offsets_length, length_map, length_seq).
  f_equal. rewrite (nth_map_lt _ _ _ 0) by (now rewrite length_seq).
  now rewrite seq_nth.
Qed.

Lemma inject_nat_nonzero (k : nat) : 0 < k -> ~ (inject_Z (Z.of_nat k) == 0)%Q.
Proof. intros H. unfold Qeq. cbn. lia. Qed.

(** The weights [np.linspace(1, 0, k)] are the ramp [1 - i/(k-1)]. *)
Lemma linspace_ramp (k i : nat) :
  2 <= k -> i < k ->
  (nth i (linspace 1 0 k) 0 == 1 - inject_Z (Z.of_nat i) / inject_Z (Z.of_nat (k - 1)))%Q.
Proof.
  intros Hk Hi. rewrite nth_linspace by auto.
  pose proof (inject_nat_nonzero (k - 1) ltac:(lia)) as Hnz.
  destruct (Nat.eqb_spec (S i) k) as [He|He]; cbn [andb].
  - destruct (Nat.ltb_spec 1 k); [|lia].
    replace i with (k - 1) by lia. field. exact Hnz.
  - field. exact Hnz.
Qed.

Lemma feq_refl (x : float) : feq x x.
Proof. destruct x; cbn; auto. reflexivity. Qed.

Lemma feq_fadd (p : float) (x y : Q) : (x == y)%Q -> feq (fadd p (Some x)) (fadd p (Some y)).
Proof. intros H. destruct p; cbn; auto. now rewrite H. Qed.

(* ================================================================== *)
(** * Strategy B: the values of a filled gap *)

(** C1.  For a gap of 3 to 24 rows with a profile value at some position,
    [impute_gap_strategy_b] raises nothing and returns the bounded array
    [result], where, before the bounds, position [i] holds
    [profile_i + w*before_offset + (1-w)*after_offset] with the weight
    [w = 1 - i/(length-1)] when both offsets exist, [profile_i] plus the one
    offset when only one exists, and [profile_i] when none exists.  For the
    six-hour gap of [scenario2_df] (offsets +1 and -1, profile values
    25, 26, 27, 28, 27, 26) the values are 26.0, 26.6, 27.2, 27.8, 26.4, 25.0. *)
Theorem strategy_b_fill_values (df : DataFrame) (profiles : Profiles) (var : Var)
    (start length : nat) :
  3 <= length <= 24 ->
  start + length <= List.length df ->
  (exists j, j < length /\ profile_at profiles var df (start + j) <> None) ->
  (exists result,
     strategy_b_result df (seq start length) var profiles = Ok (Some result) /\
     impute_gap_strategy_b df (seq start length) var profiles
     = Ok (enforce_bounds var result) /\
     List.length result = length /\
     forall i, i < length ->
       let profile_i := profile_at profiles var df (start + i) in
       let w := (1 - inject_Z (Z.of_nat i) / inject_Z (Z.of_nat (length - 1)))%Q in
       feq (nth i result nan)
           (match before_offset profiles var df start,
                  after_offset profiles var df start length with
            | Some bo, Some ao => fadd profile_i (Some (w * bo + (1 - w) * ao)%Q)
            | Some bo, None => fadd profile_i (Some bo)
            | None, Some ao => fadd profile_i (Some ao)
            | None, None => profile_i
            end)) /\
  (before_offset scenario2_profiles temperature scenario2_df 1 = Some (25 - 24)%Q /\
   after_offset scenario2_profiles temperature scenario2_df 1 6 = Some (24 - 25)%Q /\
   map (profile_at scenario2_profiles temperature scenario2_df) (seq 1 6)
   = [Some 25; Some 26; Some 27; Some 28; Some 27; Some 26]%Q /\
   exists result,
     strategy_b_result scenario2_df (seq 1 6) temperature scenario2_profiles
     = Ok (Some result) /\
     Forall2 feq result
       [Some 26; Some (266 # 10); Some (272 # 10); Some (278 # 10);
        Some (264 # 10); Some 25]%Q).
Proof.
  intros Hlen Hr (j & Hj & Hpj). split.
  - assert (Hall : forallb isnan (map (profile_at profiles var df) (seq start length)) = false).
    { destruct (forallb _ _) eqn:E; auto. rewrite forallb_forall in E.
      destruct (profile_at profiles var df (start + j)) as [q|] eqn:Ep; [|congruence].
      specialize (E (Some q)). cbn in E. symmetry. apply E.
      apply in_map_iff. exists (start + j). split; auto. apply in_seq. lia. }
    exists (diurnal_values profiles var df start length).
    rewrite strategy_b_result_range, impute_gap_strategy_b_range, Hall by lia.
    repeat split; auto using diurnal_values_length.
    intros i Hi profile_i w. rewrite nth_diurnal_values by auto. fold profile_i.
    unfold blend_offsets.
    destruct (before_offset profiles var df start) as [bo|],
             (after_offset profiles var df start length) as [ao|].
    + rewrite (nth_map_lt _ _ _ 0%Q) by (now rewrite linspace_length).
      apply feq_fadd. now rewrite linspace_ramp by lia.
    + rewrite nth_repeat_lt by auto. apply feq_refl.
    + rewrite nth_repeat_lt by auto. apply feq_refl.
    + rewrite nth_repeat_lt by auto. destruct profile_i; cbn; auto. ring.
  - repeat split.
    eexists. split; [vm_compute; reflexivity|].
    repeat constructor.
Qed.

Lemma strategy_b_fill_values_witness :
  3 <= 6 <= 24 /\
  1 + 6 <= List.length scenario2_df /\
  exists result,
    strategy_b_result scenario2_df (seq 1 6) temperature scenario2_profiles
    = Ok (Some result) /\ List.length result = 6.
Proof.
  assert (H1 : 3 <= 6 <= 24) by lia.
  assert (H2 : 1 + 6 <= List.length scenario2_df) by (cbn; lia).
  assert (H3 : exists j, j < 6 /\
                 profile_at scenario2_profiles temperature scenario2_df (1 + j) <> None).
  { exists 0. split; [lia|]. cbn. discriminate. }
  split; [exact H1|]. split; [exact H2|].
  destruct (strategy_b_fill_values scenario2_df scenario2_profiles temperature 1 6 H1 H2 H3)
    as ((result & Hres & _ & Hl & _) & _).
  exists result. split; assumption.
Defined.

(** ** Provenance records *)

Lemma gap_values_strategy (profiles : Profiles) (var : Var) (df : DataFrame) (s k : nat)
    (vals : list float) (strategy : string) :
  gap_values profiles var df s k = Some (vals, strategy) ->
  (strategy = "A"%string /\ k <= 2) \/ (strategy = "B"%string /\ 3 <= k <= 24).
Proof.
  unfold gap_values.
  destruct (Nat.ltb_spec 24 k); [discriminate|].
  destruct (Nat.leb_spec k 2).
  - destruct (interpolate _ _ k); intros [= <- <-]. now left.
  - destruct (forallb _ _); intros [= <- <-]. right. split; [reflexivity|lia].
Qed.

Lemma imputed_cell_strategy (profiles : Profiles) (var : Var) (df : DataFrame) (i : nat)
    (v : float) (strategy : string) :
  imputed_cell profiles var df i = Some (v, strategy) ->
  strategy = "A"%string \/ strategy = "B"%string.
Proof.
  intros H. apply imputed_cell_Some in H. destruct H as (s & k & vals & _ & _ & Hg & _).
  apply gap_values_strategy in Hg. tauto.
Qed.

(** A record lists, for each variable, the strategy of the imputed cell
    and nothing else. *)
Lemma strategies_of_method_string (profiles : Profiles) (df : DataFrame) (i : nat) (var : Var) :
  strategies_of (method_string profiles df i) var
  = match imputed_cell profiles var df i with
    | Some (_, strategy) => [strategy]
    | None => []
    end.
Proof.
  unfold method_string, tag_cell.
  pose proof (imputed_cell_strategy profiles temperature df i) as H1.
  pose proof (imputed_cell_strategy profiles rh df i) as H2.
  pose proof (imputed_cell_strategy profiles wind_speed df i) as H3.
  destruct var;
    destruct (imputed_cell profiles temperature df i) as [[v1 s1]|];
    destruct (imputed_cell profiles rh df i) as [[v2 s2]|];
    destruct (imputed_cell profiles wind_speed df i) as [[v3 s3]|];
    try (destruct (H1 _ _ eq_refl) as [-> | ->]);
    try (destruct (H2 _ _ eq_refl) as [-> | ->]);
    try (destruct (H3 _ _ eq_refl) as [-> | ->]);
    reflexivity.
Qed.

(** ** Bounds *)

Lemma bound_in_domain (var : Var) (v : Q) : in_domain var v -> bound var (Some v) = Some v.
Proof.
  destruct var; cbn; auto.
  - intros [H0 H1]. apply Qle_bool_iff in H0, H1. now rewrite H0, H1.
  - intros H0. apply Qle_bool_iff in H0. now rewrite H0.
Qed.

Lemma bound_Some (var : Var) (v : Q) : exists v', bound var (Some v) = Some v' /\ in_domain var v'.
Proof.
  destruct var; cbn.
  - eauto.
  - destruct (Qle_bool 0 v) eqn:E0.
    + destruct (Qle_bool v 100) eqn:E1; eexists; split; eauto.
      * apply Qle_bool_iff in E0, E1. auto.
      * split; [discriminate|apply Qle_refl].
    + replace (Qle_bool 0 100) with true by reflexivity.
      eexists; split; eauto. split; [apply Qle_refl|discriminate].
  - destruct (Qle_bool 0 v) eqn:E0; eexists; split; eauto.
    + now apply Qle_bool_iff in E0.
    + apply Qle_refl.
Qed.

Lemma nth_slice_1_m1 {A : Type} (l : list A) (i : nat) (d : A) :
  S (S i) < length l -> nth i (slice_1_m1 l) d = nth (S i) l d.
Proof.
  intros H. unfold slice_1_m1. destruct l as [|a l]; cbn in *; [lia|].
  rewrite removelast_firstn_len, nth_firstn.
  destruct (Nat.ltb_spec i (Nat.pred (length l))); auto. lia.
Qed.

(** The interior points of [np.linspace(b, a, k + 2)]. *)
Lemma nth_interpolate_both (b a : Q) (k i : nat) :
  i < k ->
  exists x,
    nth i (map Some (slice_1_m1 (linspace b a (k + 2)))) nan = Some x /\
    x = (b + inject_Z (Z.of_nat (S i)) * ((a - b) / inject_Z (Z.of_nat (k + 2 - 1))))%Q /\
    (x == b + inject_Z (Z.of_nat (i + 1)) / inject_Z (Z.of_nat (k + 1)) * (a - b))%Q.
Proof.
  intros Hi. eexists. split; [|split].
  - rewrite (nth_map_lt _ _ _ 0%Q) by (rewrite slice_1_m1_length, linspace_length; lia).
    rewrite nth_slice_1_m1 by (rewrite linspace_length; lia).
    rewrite nth_linspace by lia.
    destruct (Nat.eqb_spec (S (S i)) (k + 2)); [lia|]. cbn [andb]. reflexivity.
  - reflexivity.
  - replace (k + 2 - 1) with (k + 1) by lia. replace (S i) with (i + 1) by lia.
    field. apply inject_nat_nonzero. lia.
Qed.

Lemma interior_in_domain (var : Var) (b a : Q) (k i : nat) :
  k <= 2 -> i < k -> in_domain var b -> in_domain var a ->
  in_domain var (b + inject_Z (Z.of_nat (S i)) * ((a - b) / inject_Z (Z.of_nat (k + 2 - 1))))%Q.
Proof.
  intros Hk Hi Hb Ha.
  assert (Hcases : (k = 1 /\ i = 0) \/ (k = 2 /\ i = 0) \/ (k = 2 /\ i = 1)) by lia.
  destruct var; cbn in *; auto.
  - destruct Hb as [Hb0 Hb1], Ha as [Ha0 Ha1].
    destruct Hcases as [[-> ->]|[[-> ->]|[-> ->]]]; cbn; split.
    + setoid_replace (b + 1 * ((a - b) / 2))%Q with ((1 # 2) * b + (1 # 2) * a)%Q by field. lra.
    + setoid_replace (b + 1 * ((a - b) / 2))%Q with ((1 # 2) * b + (1 # 2) * a)%Q by field. lra.
    + setoid_replace (b + 1 * ((a - b) / 3))%Q with ((2 # 3) * b + (1 # 3) * a)%Q by field. lra.
    + setoid_replace (b + 1 * ((a - b) / 3))%Q with ((2 # 3) * b + (1 # 3) * a)%Q by field. lra.
    + setoid_replace (b + 2 * ((a - b) / 3))%Q with ((1 # 3) * b + (2 # 3) * a)%Q by field. lra.
    + setoid_replace (b + 2 * ((a - b) / 3))%Q with ((1 # 3) * b + (2 # 3) * a)%Q by field. lra.
  - destruct Hcases as [[-> ->]|[[-> ->]|[-> ->]]]; cbn.
    + setoid_replace (b + 1 * ((a - b) / 2))%Q with ((1 # 2) * b + (1 # 2) * a)%Q by field. lra.
    + setoid_replace (b + 1 * ((a - b) / 3))%Q with ((2 # 3) * b + (1 # 3) * a)%Q by field. lra.
    + setoid_replace (b + 2 * ((a - b) / 3))%Q with ((1 # 3) * b + (2 # 3) * a)%Q by field. lra.
Qed.

(* ================================================================== *)
(** * Strategy A: the values of a filled gap *)

(** C2, counterexample.  In [negative_wind_df] the gap (0, 1) of the wind
    speed has the single boundary value -2 and the gap (2, 1) the boundary
    values -2 and -4, whose interior point is -3.  The bounds block of
    Strategy A (lines 211-214) clips both fills: the cells hold 0, not -2
    and -3, and both rows are tagged "A". *)
Lemma strategy_a_fill_is_clipped :
  find_gaps (is_missing wind_speed negative_wind_df) = [(0, 1); (2, 1)] /\
  boundary_before (column wind_speed negative_wind_df) 0 = None /\
  boundary_after (column wind_speed negative_wind_df) 0 1 = Some (-2)%Q /\
  boundary_before (column wind_speed negative_wind_df) 2 = Some (-2)%Q /\
  boundary_after (column wind_speed negative_wind_df) 2 1 = Some (-4)%Q /\
  (exists interp,
     interpolate (Some (-2)%Q) (Some (-4)%Q) 1 = Some interp /\
     Forall2 feq interp [Some (-3)%Q]) /\
  exists df' methods,
    impute_station negative_wind_df (fun _ => []) = Ok (df', methods) /\
    column wind_speed df' = [Some 0; Some (-2); Some 0; Some (-4)]%Q /\
    ~ feq (nth 0 (column wind_speed df') nan) (Some (-2)%Q) /\
    ~ feq (nth 2 (column wind_speed df') nan) (Some (-3)%Q) /\
    methods = ["wind_speed:A"; ""; "wind_speed:A"; ""]%string.
Proof.
  split; [reflexivity|]. split; [reflexivity|]. split; [reflexivity|].
  split; [reflexivity|]. split; [reflexivity|].
  split.
  - eexists. split; [reflexivity|]. repeat constructor.
  - eexists. eexists. split; [vm_compute; reflexivity|].
    split; [reflexivity|].
    split; [cbn; intros H; discriminate H|].
    split; [cbn; intros H; discriminate H|].
    reflexivity.
Qed.

(** C2, amended.  For a gap of one or two rows whose boundary values lie
    within the float range (where the interpolation does not overflow, which
    the exact arithmetic cannot show), [impute_station] returns a frame in
    which, when both boundary values exist, position [i] of the gap holds
    the interior point [b + (i+1)/(length+1) * (a - b)] (as an exact
    rational, so up to the rounding of the floats) passed through the
    bounds of the variable (the point itself when the boundary values lie
    in the domain of the variable, so always for the temperature); when one
    boundary value exists, every position holds that value passed through
    the bounds; all these rows are tagged "A".  When no boundary value exists
    the gap stays missing and untagged.  A boundary value is absent exactly
    when the gap touches that end of the series.  The observations 20.0 and
    24.0 around two missing hours give 64/3 and 68/3 in [df_out] of [main],
    which are 21.33 and 22.67 to two decimals, both rows tagged
    "temperature:A". *)
Theorem strategy_a_fill_values (df : DataFrame) (profiles : Profiles) (var : Var)
    (start length : nat) :
  In (start, length) (find_gaps (is_missing var df)) ->
  length <= 2 ->
  (forall v, boundary_before (column var df) start = Some v -> float_range v) ->
  (forall v, boundary_after (column var df) start length = Some v -> float_range v) ->
  (exists df' methods,
     impute_station df profiles = Ok (df', methods) /\
     match boundary_before (column var df) start,
           boundary_after (column var df) start length with
     | Some b, Some a =>
         forall i, i < length ->
           exists x,
             (x == b + inject_Z (Z.of_nat (i + 1)) / inject_Z (Z.of_nat (length + 1))
                       * (a - b))%Q /\
             nth (start + i) (column var df') nan = bound var (Some x) /\
             (in_domain var b -> in_domain var a -> bound var (Some x) = Some x) /\
             strategies_of (nth (start + i) methods ""%string) var = ["A"%string]
     | Some v, None | None, Some v =>
         forall i, i < length ->
           nth (start + i) (column var df') nan = bound var (Some v) /\
           (in_domain var v -> bound var (Some v) = Some v) /\
           strategies_of (nth (start + i) methods ""%string) var = ["A"%string]
     | None, None =>
         forall i, i < length ->
           nth (start + i) (column var df') nan = None /\
           strategies_of (nth (start + i) methods ""%string) var = []
     end) /\
  (boundary_before (column var df) start = None <-> start = 0) /\
  (boundary_after (column var df) start length = None
   <-> start + length = List.length df) /\
  (exists out,
     main scenario1_raw = Ok out /\
     Forall2 feq (map (fun o => row_temperature (out_row o)) out)
       [Some 20; Some (64 # 3); Some (68 # 3); Some 24]%Q /\
     Forall2 to_two_decimals (map (fun o => row_temperature (out_row o)) out)
       [20; 2133 # 100; 2267 # 100; 24]%Q /\
     map impute_method out
     = [""; "temperature:A"; "temperature:A"; ""]%string).
Proof.
  intros Hin Hk _ _.
  destruct (gap_in_range df var start length Hin) as (Hk1 & Hr & Hmiss & Hbefore & Hafter).
  split; [|split; [|split]].
  - exists (fst (imputed profiles df)), (snd (imputed profiles df)).
    split; [rewrite impute_station_ok; now destruct (imputed profiles df)|].
    assert (Hcell : forall i, i < length ->
              nth (start + i) (column var (fst (imputed profiles df))) nan
              = match gap_values profiles var df start length with
                | Some (vals, _) => nth i vals nan
                | None => None
                end /\
              strategies_of (nth (start + i) (snd (imputed profiles df)) ""%string) var
              = match gap_values profiles var df start length with
                | Some (_, strategy) => [strategy]
                | None => []
                end).
    { intros i Hi.
      rewrite imputed_column, imputed_method, strategies_of_method_string by lia.
      rewrite (imputed_cell_in_gap profiles df var start length) by (auto; lia).
      replace (start + i - start) with i by lia.
      destruct (gap_values profiles var df start length) as [[vals str]|]; auto.
      split; auto. apply Hmiss. lia. }
    unfold gap_values in Hcell.
    destruct (Nat.ltb_spec 24 length); [lia|].
    destruct (Nat.leb_spec length 2); [|lia].
    destruct (boundary_before (column var df) start) as [b|],
             (boundary_after (column var df) start length) as [a|];
      cbn [interpolate] in Hcell; intros i Hi; destruct (Hcell i Hi) as [Hv Ht];
      rewrite Hv, Ht, ?nth_enforce_bounds.
    + destruct (nth_interpolate_both b a length i Hi) as (x & Hx & Hxeq & Hxq).
      exists x. split; [exact Hxq|]. split; [f_equal; exact Hx|]. split; auto.
      intros Hb Ha. apply bound_in_domain. rewrite Hxeq.
      now apply interior_in_domain.
    + rewrite nth_repeat_lt by auto. repeat split; auto using bound_in_domain.
    + rewrite nth_repeat_lt by auto. repeat split; auto using bound_in_domain.
    + split; reflexivity.
  - unfold boundary_before. destruct (Nat.ltb_spec 0 start) as [Hs|Hs].
    + destruct (Hbefore Hs) as [v ->]. split; [discriminate|lia].
    + split; auto. lia.
  - unfold boundary_after. rewrite column_length.
    destruct (Nat.ltb_spec (start + length) (List.length df)) as [Hs|Hs].
    + destruct (Hafter Hs) as [v ->]. split; [discriminate|lia].
    + split; auto. lia.
  - eexists. split; [vm_compute; reflexivity|]. split; [|split; [|reflexivity]].
    + repeat constructor.
    + repeat constructor; cbn; intros H; discriminate H.
Qed.

Lemma strategy_a_fill_values_witness :
  In (1, 2) (find_gaps (is_missing temperature (load_and_clean scenario1_raw))) /\
  2 <= 2 /\
  float_range 20 /\ float_range 24 /\
  exists df' methods,
    impute_station (load_and_clean scenario1_raw)
                   (build_diurnal_profiles (load_and_clean scenario1_raw))
    = Ok (df', methods).
Proof.
  assert (H1 : In (1, 2) (find_gaps (is_missing temperature (load_and_clean scenario1_raw))))
    by (cbn; auto).
  assert (H2 : 2 <= 2) by lia.
  assert (H20 : float_range 20)
    by (split; vm_compute; intros H; discriminate H).
  assert (H24 : float_range 24)
    by (split; vm_compute; intros H; discriminate H).
  assert (Hb : forall v,
             boundary_before (column temperature (load_and_clean scenario1_raw)) 1 = Some v ->
             float_range v).
  { intros v Hv. vm_compute in Hv. injection Hv as <-. exact H20. }
  assert (Ha : forall v,
             boundary_after (column temperature (load_and_clean scenario1_raw)) 1 2 = Some v ->
             float_range v).
  { intros v Hv. vm_compute in Hv. injection Hv as <-. exact H24. }
  split; [exact H1|]. split; [exact H2|]. split; [exact H20|]. split; [exact H24|].
  destruct (strategy_a_fill_values (load_and_clean scenario1_raw)
              (build_diurnal_profiles (load_and_clean scenario1_raw))
              temperature 1 2 H1 H2 Hb Ha) as ((df' & methods & Hrun & _) & _).
  exists df', methods. exact Hrun.
Defined.

(** ** Gaps of the diurnal strategy *)






(** The cells and the record of a gap after the run. *)
Lemma gap_after_run (profiles : Profiles) (df : DataFrame) (var : Var) (s k i : nat) :
  In (s, k) (find_gaps (is_missing var df)) -> i < k ->
  nth (s + i) (column var (fst (imputed profiles df))) nan
  = match gap_values profiles var df s k with
    | Some (vals, _) => nth i vals nan
    | None => None
    end /\
  strategies_of (nth (s + i) (snd (imputed profiles df)) ""%string) var
  = match gap_values profiles var df s k with
    | Some (_, strategy) => [strategy]
    | None => []
    end.
Proof.
  intros Hin Hi.
  destruct (gap_in_range df var s k Hin) as (Hk1 & Hr & Hmiss & _).
  rewrite imputed_column, imputed_method, strategies_of_method_string by lia.
  rewrite (imputed_cell_in_gap profiles df var s k) by (auto; lia).
  replace (s + i - s) with i by lia.
  destruct (gap_values profiles var df s k) as [[vals str]|]; auto.
  split; auto. apply Hmiss. lia.
Qed.

(* ================================================================== *)
(** * Strategy B: partial resolution *)



(* ================================================================== *)
(** * Physical bounds *)

Lemma gap_values_bounded (profiles : Profiles) (var : Var) (df : DataFrame) (s k : nat)
    (vals : list float) (strategy : string) :
  gap_values profiles var df s k = Some (vals, strategy) ->
  exists raw, vals = enforce_bounds var raw.
Proof.
  unfold gap_values. destruct (24 <? k); [discriminate|].
  destruct (k <=? 2).
  - destruct (interpolate _ _ k); intros [= <- <-]; eauto.
  - destruct (forallb _ _); intros [= <- <-]; eauto.
Qed.

Lemma filled_cell_bounded (profiles : Profiles) (df : DataFrame) (var : Var) (i : nat) (v : Q) :
  nth i (column var df) nan = None ->
  nth i (column var (fst (imputed profiles df))) nan = Some v ->
  in_domain var v.
Proof.
  intros H0 H1.
  destruct (Nat.ltb_spec i (length df)) as [Hi|Hi].
  2:{ rewrite nth_overflow in H1 by (now rewrite column_length, imputed_length).
      discriminate. }
  rewrite imputed_column in H1 by auto.
  destruct (imputed_cell profiles var df i) as [[x str]|] eqn:E; [|congruence].
  apply imputed_cell_Some in E. destruct E as (s & k & vals & _ & _ & Hg & Hx).
  apply gap_values_bounded in Hg. destruct Hg as [raw ->].
  rewrite nth_enforce_bounds in Hx. subst x.
  destruct (nth (i - s) raw nan) as [u|]; [|now rewrite bound_nan in H1].
  destruct (bound_Some var u) as (v' & Hb & Hd). congruence.
Qed.

(** C5.  [impute_station] returns a frame in which every filled cell lies
    in the domain of its variable, whatever strategy filled it: relative
    humidity in [0, 100], wind speed at least 0, temperature unconstrained.
    Both strategies apply the same function [enforce_bounds], which leaves
    temperature alone and clips a relative humidity of 104.3 to 100. *)
Theorem bounds_enforced (df : DataFrame) (profiles : Profiles) :
  exists df' methods,
    impute_station df profiles = Ok (df', methods) /\
    (forall var i v,
       nth i (column var df) nan = None -> nth i (column var df') nan = Some v ->
       in_domain var v /\ bound var (Some v) = Some v) /\
    (forall i v,
       nth i (column rh df) nan = None -> nth i (column rh df') nan = Some v ->
       (0 <= v /\ v <= 100)%Q) /\
    (forall i v,
       nth i (column wind_speed df) nan = None ->
       nth i (column wind_speed df') nan = Some v ->
       (0 <= v)%Q) /\
    (forall var start length vals strategy,
       gap_values profiles var df start length = Some (vals, strategy) ->
       exists raw, vals = enforce_bounds var raw) /\
    (forall l, enforce_bounds temperature l = l) /\
    enforce_bounds rh [Some (1043 # 10)%Q] = [Some 100%Q] /\
    enforce_bounds rh [Some (- (5 # 10))%Q] = [Some 0%Q] /\
    enforce_bounds wind_speed [Some (- (5 # 10))%Q] = [Some 0%Q].
Proof.
  exists (fst (imputed profiles df)), (snd (imputed profiles df)).
  split; [rewrite impute_station_ok; now destruct (imputed profiles df)|].
  split; [|split; [|split; [|split; [|split]]]].
  - intros var i v H0 H1.
    pose proof (filled_cell_bounded profiles df var i v H0 H1) as Hd.
    split; auto using bound_in_domain.
  - intros i v H0 H1. exact (filled_cell_bounded profiles df rh i v H0 H1).
  - intros i v H0 H1. exact (filled_cell_bounded profiles df wind_speed i v H0 H1).
  - intros var start length vals strategy. apply gap_values_bounded.
  - reflexivity.
  - repeat split.
Qed.

Lemma bounds_enforced_witness :
  exists df' methods,
    impute_station scenario4_df scenario4_profiles = Ok (df', methods) /\
    nth 1 (column rh scenario4_df) nan = None /\
    nth 1 (column rh df') nan = Some 100%Q /\
    (0 <= 100 /\ 100 <= 100)%Q.
Proof.
  destruct (bounds_enforced scenario4_df scenario4_profiles)
    as (df' & methods & Hrun & _ & Hrh & _).
  exists df', methods.
  assert (Hc : nth 1 (column rh df') nan = Some 100%Q).
  { vm_compute in Hrun. injection Hrun as <- <-. reflexivity. }
  split; [exact Hrun|]. split; [reflexivity|]. split; [exact Hc|].
  exact (Hrh 1 100%Q eq_refl Hc).
Defined.

(* ================================================================== *)
(** * Frame condition *)








(* ================================================================== *)
(** * Provenance records *)

(** What holds of the records in general: a cell the run filled has one
    entry in the record of its row, with the letter of its strategy. *)
Lemma provenance_of_filled_cell (df : DataFrame) (profiles : Profiles) (var : Var)
    (start length i : nat) (v : Q) :
  In (start, length) (find_gaps (is_missing var df)) -> i < length ->
  nth (start + i) (column var (fst (imputed profiles df))) nan = Some v ->
  strategies_of (nth (start + i) (snd (imputed profiles df)) ""%string) var
  = [if length <=? 2 then "A"%string else "B"%string].
Proof.
  intros Hin Hi Hv.
  destruct (gap_after_run profiles df var start length i Hin Hi) as [Hc Ht].
  rewrite Ht. rewrite Hc in Hv.
  destruct (gap_values profiles var df start length) as [[vals str]|] eqn:Eg; [|discriminate].
  apply gap_values_strategy in Eg. destruct Eg as [[-> Hk]|[-> Hk]].
  - now destruct (Nat.leb_spec length 2); [|lia].
  - now destruct (Nat.leb_spec length 2); [lia|].
Qed.

(** C3.  The run of [main] on [partial_raw]: the second day has a gap of
    three hours (rows 6 to 8) whose last hour has no profile value.  Row 8
    is not filled, its temperature is still missing in the output, and yet
    its record is "temperature:B". *)
Theorem provenance_tags_unfilled_position :
  find_gaps (is_missing temperature partial_df) = [(3, 1); (6, 3)] /\
  Forall2 feq (map (profile_at partial_profiles temperature partial_df) (seq 6 3))
    [Some 21%Q; Some 22%Q; None] /\
  exists out,
    main partial_raw = Ok out /\
    Forall2 feq (map (fun o => row_temperature (out_row o)) out)
      [Some 20; Some 21; Some 22; Some 23; Some 24;
       Some 20; Some 21; Some 22; None; Some 24]%Q /\
    map impute_method out
    = [""; ""; ""; "temperature:A"; "";
       ""; "temperature:B"; "temperature:B"; "temperature:B"; ""]%string /\
    (row_temperature (out_row (nth 8 out (mkOutRow (hourly 0 None) ""))) = None /\
     strategies_of (impute_method (nth 8 out (mkOutRow (hourly 0 None) ""))) temperature
     = ["B"%string]).
Proof.
  split; [vm_compute; reflexivity|]. split; [repeat constructor|].
  eexists. split; [vm_compute; reflexivity|].
  split; [repeat constructor|]. split; [reflexivity|]. split; reflexivity.
Qed.

(* ================================================================== *)
(** * The diurnal profile *)

Lemma station_eqb_eq (a b : StationId) : station_eqb a b = true <-> a = b.
Proof.
  destruct a as [x|x], b as [y|y]; cbn.
  - rewrite Z.eqb_eq. split; [intros ->|intros [= ->]]; reflexivity.
  - split; discriminate.
  - split; discriminate.
  - rewrite String.eqb_eq. split; [intros ->|intros [= ->]]; reflexivity.
Qed.

Lemma station_eqb_spec (a b : StationId) : reflect (a = b) (station_eqb a b).
Proof. apply iff_reflect. symmetry. apply station_eqb_eq. Qed.

Lemma key_eqb_eq (a b : Key) : key_eqb a b = true <-> a = b.
Proof.
  destruct a as [[s1 m1] h1], b as [[s2 m2] h2]. cbn.
  rewrite !andb_true_iff, station_eqb_eq, !Z.eqb_eq. split.
  - intros [[-> ->] ->]. reflexivity.
  - intros [= -> -> ->]. auto.
Qed.

Lemma key_eqb_refl (a : Key) : key_eqb a a = true.
Proof. now apply key_eqb_eq. Qed.

Lemma existsb_key_in (k : Key) (l : list Key) : existsb (key_eqb k) l = true <-> In k l.
Proof.
  rewrite existsb_exists. split.
  - intros (x & Hx & He). apply key_eqb_eq in He. now subst.
  - intros H. exists k. auto using key_eqb_refl.
Qed.

Lemma group_keys_in (k : Key) (l : list Key) : In k (group_keys l) <-> In k l.
Proof.
  induction l as [|a l IH]; cbn; [tauto|].
  destruct (existsb (key_eqb a) l) eqn:E.
  - apply existsb_key_in in E. rewrite IH. split; auto. intros [<-|H]; auto.
  - cbn. now rewrite IH.
Qed.

Lemma find_keyed {B : Type} (F : Key -> B) (k : Key) (ks : list Key) :
  find (fun kv => key_eqb (fst kv) k) (map (fun k' => (k', F k')) ks)
  = if existsb (key_eqb k) ks then Some (k, F k) else None.
Proof.
  induction ks as [|a ks IH]; cbn; auto.
  destruct (key_eqb a k) eqn:E.
  - apply key_eqb_eq in E. subst a. now rewrite key_eqb_refl.
  - replace (key_eqb k a) with false.
    + exact IH.
    + symmetry. destruct (key_eqb k a) eqn:E'; auto.
      apply key_eqb_eq in E'. subst. rewrite key_eqb_refl in E. discriminate.
Qed.

(** A lookup in the profile is the mean over the rows of the key. *)
Lemma profile_lookup (df : DataFrame) (var : Var) (k : Key) :
  Series_get (build_diurnal_profiles df var) k nan
  = mean (map (cell var) (filter (fun r => key_eqb (row_key r) k) df)).
Proof.
  unfold Series_get, build_diurnal_profiles, groupby_mean.
  rewrite (find_keyed (fun k' => mean (map (cell var)
                                   (filter (fun r => key_eqb (row_key r) k') df)))).
  destruct (existsb (key_eqb k) (group_keys (map row_key df))) eqn:E; auto.
  assert (Hnot : ~ In k (map row_key df)).
  { intros H. apply group_keys_in, existsb_key_in in H. congruence. }
  replace (filter (fun r => key_eqb (row_key r) k) df) with (@nil Row); auto.
  symmetry. clear E. induction df as [|r df IH]; cbn [filter]; auto.
  destruct (key_eqb (row_key r) k) eqn:Er.
  - apply key_eqb_eq in Er. destruct Hnot. cbn [map]. left. exact Er.
  - apply IH. intros H. apply Hnot. cbn [map]. right. exact H.
Qed.

Lemma mapM_Ok {A B : Type} (f : A -> Result B) (g : A -> B) (l : list A) :
  (forall a, f a = Ok (g a)) -> mapM f l = Ok (map g l).
Proof.
  intros H. induction l as [|a l IH]; cbn; auto. now rewrite H, IH.
Qed.

Lemma insert_by_length {A : Type} (leb : A -> A -> bool) (x : A) (l : list A) :
  length (insert_by leb x l) = S (length l).
Proof. induction l as [|y l IH]; cbn; auto. destruct (leb x y); cbn; auto. Qed.

Lemma sort_by_length {A : Type} (leb : A -> A -> bool) (l : list A) :
  length (sort_by leb l) = length l.
Proof.
  unfold sort_by. induction l as [|x l IH]; cbn; auto.
  now rewrite insert_by_length, IH.
Qed.

Lemma insert_by_in {A : Type} (leb : A -> A -> bool) (x y : A) (l : list A) :
  In y (insert_by leb x l) <-> y = x \/ In y l.
Proof.
  induction l as [|z l IH]; cbn.
  - intuition.
  - destruct (leb x z); cbn; [intuition|]. rewrite IH. intuition.
Qed.

Lemma sort_by_in {A : Type} (leb : A -> A -> bool) (y : A) (l : list A) :
  In y (sort_by leb l) <-> In y l.
Proof.
  unfold sort_by. induction l as [|x l IH]; cbn; [tauto|].
  rewrite insert_by_in, IH. intuition.
Qed.

Lemma unique_In (s : StationId) (l : list StationId) : In s (unique l) <-> In s l.
Proof.
  induction l as [|a l IH]; cbn; [tauto|].
  rewrite filter_In, IH, negb_true_iff.
  destruct (station_eqb s a) eqn:E.
  - apply station_eqb_eq in E. subst. intuition congruence.
  - assert (s <> a) by (intros ->; rewrite (proj2 (station_eqb_eq a a) eq_refl) in E;
                        discriminate).
    intuition congruence.
Qed.

(** ** The built-in sort of the station ids *)

Lemma lt_py_kind (x y : StationId) :
  is_int x = is_int y -> lt_py y x = Ok (negb (station_leb x y)).
Proof.
  destruct x as [x|x], y as [y|y]; cbn; try discriminate; intros _; unfold station_leb; cbn.
  - unfold Z.ltb. rewrite (Z.compare_antisym x y). now destruct (x ?= y)%Z.
  - rewrite (String.compare_antisym y x). now destruct (String.compare x y).
Qed.

Lemma lt_py_mixed (x y : StationId) :
  is_int x <> is_int y -> lt_py y x = Raise TypeError.
Proof. destruct x, y; cbn; congruence. Qed.

Lemma insert_py_kind (k : bool) (x : StationId) (l : list StationId) :
  is_int x = k -> forallb (fun b => Bool.eqb (is_int b) k) l = true ->
  insert_py x l = Ok (insert_by station_leb x l).
Proof.
  intros Hx. induction l as [|y l IH]; cbn [forallb insert_py insert_by]; auto.
  intros H. apply andb_true_iff in H. destruct H as [Hy Hl].
  apply eqb_prop in Hy. rewrite lt_py_kind by congruence. cbn [bind].
  destruct (station_leb x y); cbn [negb]; auto. now rewrite IH.
Qed.

Lemma forallb_same_elements {A : Type} (f : A -> bool) (l l' : list A) :
  (forall x, In x l <-> In x l') -> forallb f l = forallb f l'.
Proof.
  intros H. apply eq_true_iff_eq. rewrite !forallb_forall.
  split; intros Hf x Hx; apply Hf, H, Hx.
Qed.

Lemma sorted_kind (k : bool) (l : list StationId) :
  forallb (fun b => Bool.eqb (is_int b) k) l = true ->
  sorted l = Ok (sort_by station_leb l).
Proof.
  induction l as [|x l IH]; cbn [forallb sorted]; auto.
  intros H. apply andb_true_iff in H. destruct H as [Hx Hl].
  rewrite (IH Hl). cbn [bind]. apply eqb_prop in Hx.
  apply (insert_py_kind k); auto.
  rewrite (forallb_same_elements _ _ l); auto.
  intros y. apply sort_by_in.
Qed.

Lemma one_kind_spec (l : list StationId) :
  one_kind l = true <-> forall a b, In a l -> In b l -> is_int a = is_int b.
Proof.
  destruct l as [|x l]; cbn [one_kind].
  - split; auto. intros _ a b [].
  - rewrite forallb_forall. split.
    + intros H a b Ha Hb.
      assert (Hk : forall c, In c (x :: l) -> is_int c = is_int x).
      { intros c [<-|Hc]; auto. now apply eqb_prop, H. }
      now rewrite (Hk a Ha), (Hk b Hb).
    + intros H y Hy. rewrite (H y x); [apply eqb_reflx|now right|now left].
Qed.

Lemma one_kind_same_elements (l l' : list StationId) :
  (forall x, In x l <-> In x l') -> one_kind l = one_kind l'.
Proof.
  intros H. apply eq_true_iff_eq. rewrite !one_kind_spec.
  split; intros Hf a b Ha Hb; apply Hf; apply H; assumption.
Qed.

(** On ids of one kind [sorted] is the sort by value. *)
Lemma sorted_one_kind (l : list StationId) :
  one_kind l = true -> sorted l = Ok (sort_by station_leb l).
Proof.
  destruct l as [|x l]; auto. intros H.
  apply (sorted_kind (is_int x)). cbn [forallb]. now rewrite eqb_reflx.
Qed.

(** On ids of both kinds [sorted] raises [TypeError]. *)
Lemma sorted_mixed (l : list StationId) :
  one_kind l = false -> sorted l = Raise TypeError.
Proof.
  induction l as [|x l IH]; [discriminate|]. intros H. cbn [sorted].
  destruct (one_kind l) eqn:El; [|now rewrite IH].
  rewrite (sorted_one_kind l El). cbn [bind].
  destruct l as [|y l]; [discriminate H|].
  assert (Hlen := sort_by_length station_leb (y :: l)).
  destruct (sort_by station_leb (y :: l)) as [|z l'] eqn:Es; [discriminate Hlen|].
  assert (Hz : In z (y :: l)) by (apply (sort_by_in station_leb); rewrite Es; now left).
  assert (Hzy : is_int z = is_int y).
  { apply (proj1 (one_kind_spec (y :: l)) El); auto. now left. }
  assert (Hxy : is_int x <> is_int y).
  { intros Hxy.
    assert (Hk : forall c, In c (x :: y :: l) -> is_int c = is_int y).
    { intros c [<-|Hc]; auto. apply (proj1 (one_kind_spec (y :: l)) El); auto. now left. }
    assert (Ht : one_kind (x :: y :: l) = true).
    { apply one_kind_spec. intros a b Ha Hb. now rewrite (Hk a Ha), (Hk b Hb). }
    congruence. }
  cbn [insert_py]. rewrite lt_py_mixed by congruence. reflexivity.
Qed.

Lemma stations_of_raw (raw : list RawRow) (s : StationId) :
  In s (unique (map station (load_and_clean raw))) <-> In s (map raw_station raw).
Proof.
  rewrite unique_In, !in_map_iff. unfold load_and_clean. split.
  - intros (r & <- & Hr). apply sort_by_in, in_map_iff in Hr.
    destruct Hr as (x & <- & Hx). exists x. auto.
  - intros (x & <- & Hx). exists (clean_row x). split; auto.
    apply sort_by_in, in_map_iff. exists x. auto.
Qed.

(** [main]: [TypeError] from [sorted] when the station ids are of both
    kinds, [ValueError] from [pd.concat] on a table without rows, and
    otherwise every station imputed against the profiles of the frame that
    was loaded. *)
Lemma main_ok (raw : list RawRow) :
  let df := load_and_clean raw in
  let profiles := build_diurnal_profiles df in
  main raw
  = if one_kind (map raw_station raw) then
      match raw with
      | [] => Raise ValueError
      | _ :: _ =>
          Ok (sort_by (fun a b => row_leb (out_row a) (out_row b))
                (concat
                   (map (fun st =>
                           let df_st := filter (fun r => station_eqb (station r) st) df in
                           map (fun rm => mkOutRow (fst rm) (snd rm))
                               (combine (fst (imputed profiles df_st))
                                        (snd (imputed profiles df_st))))
                        (sort_by station_leb (unique (map station df))))))
      end
    else Raise TypeError.
Proof.
  intros df profiles. unfold main. fold df. fold profiles.
  rewrite <- (one_kind_same_elements _ _ (stations_of_raw raw)). fold df.
  destruct (one_kind (unique (map station df))) eqn:Ek.
  - rewrite (sorted_one_kind _ Ek). cbn [bind].
    rewrite (mapM_Ok _ (fun st =>
               let df_st := filter (fun r => station_eqb (station r) st) df in
               map (fun rm => mkOutRow (fst rm) (snd rm))
                   (combine (fst (imputed profiles df_st)) (snd (imputed profiles df_st)))))
      by (intros st; cbn zeta; now rewrite impute_station_ok).
    cbn [bind].
    destruct raw as [|x raw]; [reflexivity|].
    assert (Hlen := sort_by_length station_leb (unique (map station df))).
    destruct (sort_by station_leb (unique (map station df))) as [|st sts] eqn:Es.
    + exfalso. destruct (unique (map station df)) as [|u us] eqn:Eu; [|discriminate Hlen].
      assert (Hin : In (raw_station x) (unique (map station df))).
      { apply stations_of_raw. now left. }
      rewrite Eu in Hin. exact Hin.
    + reflexivity.
  - now rewrite (sorted_mixed _ Ek).
Qed.

(** C7.  A lookup in the profile built by [build_diurnal_profiles] is the
    arithmetic mean of the valid observations of the variable over the rows
    of the frame with that station, month and hour, and NaN (not zero) when
    there is none; a NaN lookup yields a NaN value in Strategy B and an
    absent offset.  [main] builds the profiles once, from the frame it
    loaded, and, when it returns, has imputed every station against them
    (it raises [ValueError] on a table without rows and [TypeError] on
    station ids of both kinds): on [partial_raw] row 3 (hour 3) is filled
    with 23.0 during the run, a profile built from the output would hold
    23.0 for hour 3, and still row 8 (hour 3) is looked up as "no data"
    and stays missing. *)
Theorem static_profile_reference :
  (forall df var k,
     let obs := dropna (map (cell var) (filter (fun r => key_eqb (row_key r) k) df)) in
     Series_get (build_diurnal_profiles df var) k nan
     = match obs with
       | [] => nan
       | _ => Some (Qsum obs / inject_Z (Z.of_nat (List.length obs)))%Q
       end) /\
  (forall p o, p = nan -> fadd p (Some o) = nan) /\
  (forall v p, p = nan -> edge_offset v p = nan) /\
  (forall raw,
     let df := load_and_clean raw in
     let profiles := build_diurnal_profiles df in
     main raw
     = if one_kind (map raw_station raw) then
         match raw with
         | [] => Raise ValueError
         | _ :: _ =>
             Ok (sort_by (fun a b => row_leb (out_row a) (out_row b))
                   (concat
                      (map (fun st =>
                              let df_st :=
                                filter (fun r => station_eqb (station r) st) df in
                              map (fun rm => mkOutRow (fst rm) (snd rm))
                                  (combine (fst (imputed profiles df_st))
                                           (snd (imputed profiles df_st))))
                           (sort_by station_leb (unique (map station df))))))
         end
       else Raise TypeError) /\
  (forall df profiles, impute_station df profiles = Ok (imputed profiles df)) /\
  (exists df' methods,
     impute_station partial_df partial_profiles = Ok (df', methods) /\
     Series_get (partial_profiles temperature) (StrId "S1", 1%Z, 3%Z) nan = None /\
     feq (nth 3 (column temperature df') nan) (Some 23%Q) /\
     feq (Series_get (build_diurnal_profiles df' temperature) (StrId "S1", 1%Z, 3%Z) nan)
         (Some 23%Q) /\
     row_key (nth 8 partial_df (hourly 0 None)) = (StrId "S1", 1%Z, 3%Z) /\
     nth 8 (column temperature df') nan = None).
Proof.
  split; [|split; [|split; [|split; [|split]]]].
  - intros df var k obs. rewrite profile_lookup. unfold mean. fold obs.
    now destruct obs.
  - intros p o ->. reflexivity.
  - intros v p ->. unfold edge_offset. cbn. now rewrite andb_false_r.
  - exact main_ok.
  - exact impute_station_ok.
  - eexists. eexists. split; [vm_compute; reflexivity|].
    repeat split; vm_compute; reflexivity.
Qed.

Lemma static_profile_reference_witness :
  Series_get (partial_profiles temperature) (StrId "S1", 1%Z, 3%Z) nan = nan /\
  fadd (Series_get (partial_profiles temperature) (StrId "S1", 1%Z, 3%Z) nan)
       (Some 1%Q) = nan.
Proof.
  assert (H : Series_get (partial_profiles temperature) (StrId "S1", 1%Z, 3%Z) nan = nan)
    by (vm_compute; reflexivity).
  split; [exact H|].
  destruct static_profile_reference as (_ & Hnan & _).
  exact (Hnan _ 1%Q H).
Defined.

(* ================================================================== *)
(** * Running the engine on its own output *)




Section Rerun.

Variable profiles : Profiles.
Variable df : DataFrame.

(** No gap of the diurnal strategy has profile data at some of its
    positions only. *)
Hypothesis no_partial_gap :
  forall var start length,
    In (start, length) (find_gaps (is_missing var df)) -> 3 <= length <= 24 ->
    (forall i, i < length -> profile_at profiles var df (start + i) = None) \/
    (forall i, i < length -> profile_at profiles var df (start + i) <> None).





End Rerun.




(* ================================================================== *)
(** * Preconditions *)

Lemma datetime_compare_antisym (a b : datetime) :
  datetime_compare b a = CompOpp (datetime_compare a b).
Proof.
  unfold datetime_compare.
  rewrite (Z.compare_antisym (dt_year a) (dt_year b)).
  rewrite (Z.compare_antisym (dt_month a) (dt_month b)).
  rewrite (Z.compare_antisym (dt_day a) (dt_day b)).
  rewrite (Z.compare_antisym (dt_hour a) (dt_hour b)).
  rewrite (Z.compare_antisym (dt_minute a) (dt_minute b)).
  destruct (dt_year a ?= dt_year b)%Z; cbn; auto.
  destruct (dt_month a ?= dt_month b)%Z; cbn; auto.
  destruct (dt_day a ?= dt_day b)%Z; cbn; auto.
  destruct (dt_hour a ?= dt_hour b)%Z; cbn; auto.
Qed.

Lemma station_compare_antisym (a b : StationId) :
  station_compare b a = CompOpp (station_compare a b).
Proof.
  destruct a, b; cbn; auto using Z.compare_antisym, String.compare_antisym.
Qed.

Lemma row_leb_total (a b : Row) : row_leb a b = false -> row_leb b a = true.
Proof.
  unfold row_leb.
  rewrite (station_compare_antisym (station a) (station b)).
  rewrite (datetime_compare_antisym (date a) (date b)).
  destruct (station_compare (station a) (station b)); cbn; auto; try discriminate.
  destruct (datetime_compare (date a) (date b)); cbn; auto; discriminate.
Qed.

Lemma insert_by_sorted (x : Row) (l : DataFrame) :
  sorted_rows l -> sorted_rows (insert_by row_leb x l).
Proof.
  induction 1 as [|r|a b l Hab Hs IH]; cbn [insert_by].
  - constructor.
  - destruct (row_leb x r) eqn:E; repeat constructor; auto using row_leb_total.
  - destruct (row_leb x a) eqn:Ea.
    + repeat constructor; auto.
    + cbn [insert_by] in IH. destruct (row_leb x b) eqn:Eb.
      * repeat constructor; auto using row_leb_total.
      * constructor; auto.
Qed.





(* ================================================================== *)
(** * The boundary values of a gap *)

Lemma vars_prefix (profiles : Profiles) (var : Var) (vars : list Var) :
  forall (df0 : DataFrame) (ms0 : list string) (df_v : DataFrame) (ms_v : list string),
    ~ In var vars -> length ms0 = length df0 ->
    foldM (impute_station_var profiles (length df0)) vars (df0, ms0) = Ok (df_v, ms_v) ->
    map meta df_v = map meta df0 /\ column var df_v = column var df0 /\
    length ms_v = length df0.
Proof.
  induction vars as [|v vars IH]; intros df0 ms0 df_v ms_v Hnin Hm Hrun.
  - cbn in Hrun. injection Hrun as <- <-. auto.
  - cbn [foldM] in Hrun. rewrite impute_station_var_ok in Hrun by auto.
    cbn [bind] in Hrun.
    set (df1 := mapi_from (fill_cell profiles df0 v) 0 df0) in *.
    assert (Hl1 : length df1 = length df0) by apply mapi_from_length.
    rewrite <- Hl1 in Hrun.
    apply IH in Hrun.
    + destruct Hrun as (H1 & H2 & H3). unfold df1 in *.
      rewrite meta_fill_cell in H1.
      rewrite column_fill_cell_other in H2 by (intros ->; apply Hnin; now left).
      rewrite mapi_from_length in H3. auto.
    + intros H. apply Hnin. now right.
    + now rewrite mapi_from_length, Hl1.
Qed.

Lemma fold_apply_gap_fills_only (profiles : Profiles) (var : Var) (df0 : DataFrame)
    (gaps : list (nat * nat)) :
  Forall (maximal_run (is_missing var df0)) gaps ->
  forall df methods,
    fills_only var df0 df ->
    fills_only var df0 (fst (fold_left (apply_gap profiles var df0) gaps (df, methods))).
Proof.
  induction 1 as [|g gaps Hg HF IH]; intros df methods Hf; cbn [fold_left]; auto.
  pose proof (fills_only_apply_gap profiles var df0 df methods g Hf Hg) as Hf'.
  destruct (apply_gap profiles var df0 (df, methods) g) as [df' methods'].
  now apply IH.
Qed.

Lemma separated_before (lo : nat) (l1 l2 : list (nat * nat)) (g : nat * nat) :
  separated lo (l1 ++ g :: l2) ->
  lo <= fst g /\ Forall (fun g' => fst g' + snd g' <= fst g) l1.
Proof.
  revert lo. induction l1 as [|a l1 IH]; intros lo; cbn.
  - intros [H _]. auto.
  - intros [H1 H2]. destruct (IH _ H2) as [H3 H4]. split; [lia|].
    constructor; auto.
Qed.

Lemma nodup_vars (vars_done vars_rest : list Var) (var : Var) :
  IMPUTE_VARS = vars_done ++ var :: vars_rest -> ~ In var vars_done.
Proof.
  intros H Hin.
  assert (Hnd : NoDup IMPUTE_VARS) by (repeat constructor; cbn; intuition discriminate).
  rewrite H in Hnd. apply NoDup_remove_2 in Hnd. apply Hnd, in_or_app. now left.
Qed.

(** The state of the run when a gap is reached. *)
Lemma state_at_gap (df : DataFrame) (profiles : Profiles)
    (vars_done : list Var) (var : Var) (vars_rest : list Var)
    (done : list (nat * nat)) (start length : nat) (rest : list (nat * nat))
    (df_v : DataFrame) (ms_v : list string) (df_w : DataFrame) (ms_w : list string) :
  IMPUTE_VARS = vars_done ++ var :: vars_rest ->
  foldM (impute_station_var profiles (List.length df)) vars_done
        (df, repeat ""%string (List.length df)) = Ok (df_v, ms_v) ->
  find_gaps (is_missing var df_v) = done ++ (start, length) :: rest ->
  foldM (impute_station_gap profiles (List.length df) var) done (df_v, ms_v)
  = Ok (df_w, ms_w) ->
  List.length df_w = List.length df /\
  (forall i, nth i (is_missing var df) false = false ->
             nth i (column var df_w) nan = nth i (column var df) nan) /\
  In (start, length) (find_gaps (is_missing var df)) /\
  Forall (fun g => fst g + snd g < start) done.
Proof.
  intros Hvars Hrun Hgaps Hloop.
  apply vars_prefix with (var := var) in Hrun;
    [|eapply nodup_vars; eauto|apply repeat_length].
  destruct Hrun as (Hmeta & Hcol & Hms).
  assert (Hlen : List.length df_v = List.length df)
    by (now rewrite <- (length_map meta df_v), Hmeta, length_map).
  assert (Hmask : is_missing var df_v = is_missing var df)
    by (unfold is_missing; now rewrite Hcol).
  destruct (find_gaps_spec (is_missing var df_v)) as (HF & HS & _).
  rewrite Hgaps in HF, HS. apply Forall_app in HF. destruct HF as [HFd HFr].
  rewrite <- Hlen in Hloop.
  rewrite gaps_loop_ok in Hloop by (auto using fills_only_refl; lia).
  injection Hloop as Hst.
  pose proof (fold_apply_gap_fills_only profiles var df_v done HFd df_v ms_v
                (fills_only_refl var df_v)) as Hf.
  rewrite Hst in Hf. cbn [fst] in Hf.
  split; [|split; [|split]].
  - rewrite (fills_only_length var df_v df_w Hf). exact Hlen.
  - intros i Hi. destruct Hf as [_ Hf]. rewrite Hmask in Hf.
    rewrite Hf by auto. now rewrite Hcol.
  - rewrite <- Hmask, Hgaps. apply in_or_app. right. now left.
  - apply separated_before in HS. destruct HS as [_ HS]. cbn [fst] in HS.
    apply Forall_cons_iff in HFr. destruct HFr as [(Hk & _ & Hrun & _) _].
    cbn [fst snd] in Hk, Hrun.
    rewrite Forall_forall in HFd, HS |- *. intros g Hg.
    specialize (HS g Hg). destruct (HFd g Hg) as (_ & _ & _ & _ & Hend).
    destruct (Nat.eq_dec (fst g + snd g) start) as [He|]; [|lia].
    rewrite He, Hrun in Hend by lia. discriminate.
Qed.

Lemma mask_false_of_valid (df : DataFrame) (var : Var) (i : nat) (v : Q) :
  nth i (column var df) nan = Some v -> nth i (is_missing var df) false = false.
Proof.
  intros Hv. destruct (nth i (is_missing var df) false) eqn:E; auto.
  apply is_missing_nth in E. destruct E as [_ E]. congruence.
Qed.

(** C10, as the code has it.  The gaps of a variable are located before
    any of them is filled and are processed from left to right, each fill
    changing the working frame; the cells next to a gap are valid cells of
    the input and belong to no gap, so that whenever a gap is reached the
    values read before and after it, by either strategy, are those of the
    input frame: observed values, never imputed ones. *)
Theorem boundary_values_are_observed (df : DataFrame) (profiles : Profiles)
    (vars_done : list Var) (var : Var) (vars_rest : list Var)
    (done : list (nat * nat)) (start length : nat) (rest : list (nat * nat))
    (df_v : DataFrame) (ms_v : list string) (df_w : DataFrame) (ms_w : list string) :
  IMPUTE_VARS = vars_done ++ var :: vars_rest ->
  foldM (impute_station_var profiles (List.length df)) vars_done
        (df, repeat ""%string (List.length df)) = Ok (df_v, ms_v) ->
  find_gaps (is_missing var df_v) = done ++ (start, length) :: rest ->
  foldM (impute_station_gap profiles (List.length df) var) done (df_v, ms_v)
  = Ok (df_w, ms_w) ->
  (if 0 <? start then getitem (column var df_w) (start - 1) else Ok nan)
  = Ok (boundary_before (column var df) start) /\
  (if start + length <? List.length df
   then getitem (column var df_w) (start + length) else Ok nan)
  = Ok (boundary_after (column var df) start length) /\
  (if start + length <? List.length (column var df_w)
   then getitem (column var df_w) (start + length) else Ok nan)
  = Ok (boundary_after (column var df) start length) /\
  (0 < start ->
   exists v, nth (start - 1) (column var df) nan = Some v /\
             nth (start - 1) (column var df_w) nan = Some v) /\
  (start + length < List.length df ->
   exists v, nth (start + length) (column var df) nan = Some v /\
             nth (start + length) (column var df_w) nan = Some v) /\
  Forall (fun g => fst g + snd g < start) done.
Proof.
  intros Hvars Hrun Hgaps Hloop.
  destruct (state_at_gap df profiles vars_done var vars_rest done start length rest
              df_v ms_v df_w ms_w Hvars Hrun Hgaps Hloop) as (Hlen & Hsame & Hin & Hleft).
  destruct (gap_in_range df var start length Hin) as (Hk & Hr & _ & Hb & Ha).
  assert (Hbefore : boundary_before (column var df_w) start
                    = boundary_before (column var df) start).
  { unfold boundary_before. destruct (Nat.ltb_spec 0 start) as [Hs|]; auto.
    destruct (Hb Hs) as [v Hv]. apply Hsame. eapply mask_false_of_valid; eauto. }
  assert (Hafter : boundary_after (column var df_w) start length
                   = boundary_after (column var df) start length).
  { unfold boundary_after. rewrite !column_length, Hlen.
    destruct (Nat.ltb_spec (start + length) (List.length df)) as [Hs|]; auto.
    destruct (Ha Hs) as [v Hv]. apply Hsame. eapply mask_false_of_valid; eauto. }
  split; [|split; [|split; [|split; [|split]]]].
  - rewrite getitem_before by lia. now rewrite Hbefore.
  - rewrite <- Hlen. rewrite getitem_after. now rewrite Hafter.
  - rewrite column_length. rewrite getitem_after. now rewrite Hafter.
  - intros Hs. destruct (Hb Hs) as [v Hv]. exists v. split; auto.
    rewrite Hsame; auto. eapply mask_false_of_valid; eauto.
  - intros Hs. destruct (Ha Hs) as [v Hv]. exists v. split; auto.
    rewrite Hsame; auto. eapply mask_false_of_valid; eauto.
  - exact Hleft.
Qed.

Lemma boundary_values_are_observed_witness :
  exists df_w ms_w,
    IMPUTE_VARS = [] ++ temperature :: [rh; wind_speed] /\
    find_gaps (is_missing temperature partial_df) = [(3, 1)] ++ (6, 3) :: [] /\
    foldM (impute_station_gap partial_profiles (List.length partial_df) temperature)
          [(3, 1)] (partial_df, repeat ""%string (List.length partial_df))
    = Ok (df_w, ms_w) /\
    (if 0 <? 6 then getitem (column temperature df_w) (6 - 1) else Ok nan)
    = Ok (boundary_before (column temperature partial_df) 6).
Proof.
  destruct (foldM (impute_station_gap partial_profiles (List.length partial_df) temperature)
                  [(3, 1)] (partial_df, repeat ""%string (List.length partial_df)))
    as [[df_w ms_w]|e] eqn:E; [|vm_compute in E; discriminate].
  assert (H1 : IMPUTE_VARS = [] ++ temperature :: [rh; wind_speed]) by reflexivity.
  assert (H2 : foldM (impute_station_var partial_profiles (List.length partial_df)) []
                     (partial_df, repeat ""%string (List.length partial_df))
               = Ok (partial_df, repeat ""%string (List.length partial_df)))
    by reflexivity.
  assert (H3 : find_gaps (is_missing temperature partial_df) = [(3, 1)] ++ (6, 3) :: [])
    by (vm_compute; reflexivity).
  exists df_w, ms_w.
  split; [exact H1|]. split; [exact H3|]. split; [reflexivity|].
  destruct (boundary_values_are_observed partial_df partial_profiles [] temperature
              [rh; wind_speed] [(3, 1)] 6 3 [] partial_df
              (repeat ""%string (List.length partial_df)) df_w ms_w H1 H2 H3 E)
    as (Hb & _).
  exact Hb.
Defined.

(** C10, as stated, fails: there is no input and no moment of the run at
    which the cell read before or after a gap lies in a gap processed
    earlier, differs from the cell of the input, or was missing in the
    input. *)
Lemma no_imputed_boundary :
  ~ exists (df : DataFrame) (profiles : Profiles)
           (vars_done : list Var) (var : Var) (vars_rest : list Var)
           (done : list (nat * nat)) (start length : nat) (rest : list (nat * nat))
           (df_v : DataFrame) (ms_v : list string) (df_w : DataFrame) (ms_w : list string),
      IMPUTE_VARS = vars_done ++ var :: vars_rest /\
      foldM (impute_station_var profiles (List.length df)) vars_done
            (df, repeat ""%string (List.length df)) = Ok (df_v, ms_v) /\
      find_gaps (is_missing var df_v) = done ++ (start, length) :: rest /\
      foldM (impute_station_gap profiles (List.length df) var) done (df_v, ms_v)
      = Ok (df_w, ms_w) /\
      ((0 < start /\
        ((exists g, In g done /\ in_gap (fst g) (snd g) (start - 1) = true) \/
         nth (start - 1) (column var df) nan = None \/
         nth (start - 1) (column var df_w) nan <> nth (start - 1) (column var df) nan)) \/
       (start + length < List.length df /\
        ((exists g, In g done /\ in_gap (fst g) (snd g) (start + length) = true) \/
         nth (start + length) (column var df) nan = None \/
         nth (start + length) (column var df_w) nan
         <> nth (start + length) (column var df) nan))).
Proof.
  intros (df & profiles & vars_done & var & vars_rest & done & start & length & rest
          & df_v & ms_v & df_w & ms_w & Hvars & Hrun & Hgaps & Hloop & Hbad).
  destruct (state_at_gap df profiles vars_done var vars_rest done start length rest
              df_v ms_v df_w ms_w Hvars Hrun Hgaps Hloop) as (Hlen & Hsame & Hin & Hleft).
  destruct (gap_in_range df var start length Hin) as (Hk & Hr & _ & Hb & Ha).
  rewrite Forall_forall in Hleft.
  destruct Hbad as [[Hs Hbad]|[Hs Hbad]].
  - destruct (Hb Hs) as [v Hv].
    destruct Hbad as [(g & Hg & Hi)|[Hn|Hne]].
    + apply in_gap_true in Hi. specialize (Hleft g Hg). cbn in Hleft. lia.
    + congruence.
    + apply Hne, Hsame. eapply mask_false_of_valid; eauto.
  - destruct (Ha Hs) as [v Hv].
    destruct Hbad as [(g & Hg & Hi)|[Hn|Hne]].
    + apply in_gap_true in Hi. specialize (Hleft g Hg). cbn in Hleft. lia.
    + congruence.
    + apply Hne, Hsame. eapply mask_false_of_valid; eauto.
Qed.

(* ================================================================== *)
(** * Further properties of find_gaps *)

(** X1.  Every pair [(start, length)] returned by [find_gaps] is a maximal
    run of [True]: it is not empty, lies inside the mask, covers [True]
    entries only, and the entries next to it, where they exist, are
    [False]. *)
Theorem find_gaps_maximal_runs (m : list bool) (start length : nat) :
  In (start, length) (find_gaps m) ->
  1 <= length /\
  start + length <= List.length m /\
  (forall k, start <= k < start + length -> nth k m false = true) /\
  (0 < start -> nth (start - 1) m false = false) /\
  (start + length < List.length m -> nth (start + length) m false = false).
Proof.
  intros Hin. destruct (find_gaps_spec m) as (HF & _).
  rewrite Forall_forall in HF. destruct (HF _ Hin) as (H1 & H2 & H3 & H4 & H5).
  cbn [fst snd] in *. repeat split; auto. intros Hs. apply H4. lia.
Qed.

Lemma find_gaps_maximal_runs_witness :
  In (2, 2) (find_gaps [true; false; true; true; false]) /\
  nth (2 - 1) [true; false; true; true; false] false = false /\
  nth (2 + 2) [true; false; true; true; false] false = false.
Proof.
  assert (H : In (2, 2) (find_gaps [true; false; true; true; false]))
    by (cbn; auto).
  destruct (find_gaps_maximal_runs _ 2 2 H) as (_ & _ & _ & Hl & Hr).
  split; [exact H|]. split; [apply Hl; lia|apply Hr; cbn; lia].
Defined.

(** X2.  The gaps cover exactly the [True] entries: an index holds [True]
    if and only if it lies in one of the returned gaps. *)
Theorem find_gaps_covers_exactly (m : list bool) (k : nat) :
  nth k m false = true
  <-> exists start length,
        In (start, length) (find_gaps m) /\ start <= k < start + length.
Proof.
  destruct (find_gaps_spec m) as (HF & _ & HC). split.
  - intros Hk. destruct (HC k Hk) as ([s l] & Hin & Hi).
    exists s, l. split; auto. now apply in_gap_true in Hi.
  - intros (s & l & Hin & Hi). rewrite Forall_forall in HF.
    destruct (HF _ Hin) as (_ & _ & Hrun & _). now apply Hrun.
Qed.

Lemma separated_In (lo : nat) (gaps : list (nat * nat)) (g : nat * nat) :
  separated lo gaps -> In g gaps -> lo <= fst g.
Proof.
  revert lo. induction gaps as [|a gaps IH]; intros lo Hs Hin; [easy|].
  destruct Hs as [H1 H2]. destruct Hin as [->|Hin]; auto.
  specialize (IH _ H2 Hin). lia.
Qed.

Lemma separated_app_r (lo : nat) (l1 l2 : list (nat * nat)) :
  separated lo (l1 ++ l2) -> exists lo', lo <= lo' /\ separated lo' l2.
Proof.
  revert lo. induction l1 as [|a l1 IH]; intros lo Hs.
  - exists lo. auto.
  - destruct Hs as [H1 H2]. destruct (IH _ H2) as (lo' & Hlo & Hs').
    exists lo'. split; auto. lia.
Qed.

(** X3.  The gaps come from left to right and are apart: a gap listed
    after another starts strictly after the index that follows the end of
    the earlier one. *)
Theorem find_gaps_ordered (m : list bool) (l1 l2 l3 : list (nat * nat))
    (g1 g2 : nat * nat) :
  find_gaps m = l1 ++ g1 :: l2 ++ g2 :: l3 ->
  fst g1 + snd g1 < fst g2.
Proof.
  intros H. destruct (find_gaps_spec m) as (HF & HS & _). rewrite H in HF, HS.
  apply separated_app_r in HS. destruct HS as (lo & _ & [_ HS]).
  assert (Hle : fst g1 + snd g1 <= fst g2).
  { apply (separated_In _ (l2 ++ g2 :: l3)); auto. apply in_or_app. right. now left. }
  rewrite Forall_forall in HF.
  destruct (HF g1) as (_ & _ & _ & _ & Hend); [apply in_or_app; right; now left|].
  destruct (HF g2) as (Hk & _ & Hrun & _).
  { apply in_or_app. right. right. apply in_or_app. right. now left. }
  destruct (Nat.eq_dec (fst g1 + snd g1) (fst g2)) as [He|]; [|lia].
  rewrite He, Hrun in Hend by lia. discriminate.
Qed.

Lemma find_gaps_ordered_witness :
  find_gaps [true; false; true; true; false; true]
  = [] ++ (0, 1) :: [(2, 2)] ++ (5, 1) :: [] /\
  fst (0, 1) + snd (0, 1) < fst (5, 1).
Proof.
  assert (H : find_gaps [true; false; true; true; false; true]
              = [] ++ (0, 1) :: [(2, 2)] ++ (5, 1) :: []) by reflexivity.
  split; [exact H|]. exact (find_gaps_ordered _ _ _ _ _ _ H).
Defined.

Lemma skipn_nth_cons (m : list bool) (i : nat) :
  i < length m -> skipn i m = nth i m false :: skipn (S i) m.
Proof.
  revert i. induction m as [|b m IH]; intros [|i] H; cbn in *; try lia; auto.
  apply IH. lia.
Qed.

Lemma count_run (m : list bool) (d i : nat) :
  i + d <= length m ->
  (forall k, i <= k < i + d -> nth k m false = true) ->
  length (filter (fun b => b) (skipn i m))
  = d + length (filter (fun b => b) (skipn (i + d) m)).
Proof.
  revert i. induction d as [|d IH]; intros i Hr Hrun.
  - now rewrite Nat.add_0_r.
  - rewrite skipn_nth_cons by lia. rewrite Hrun by lia. cbn [filter length].
    rewrite (IH (S i)) by (try lia; intros; apply Hrun; lia).
    now replace (S i + d) with (i + S d) by lia.
Qed.

Lemma find_gaps_outer_count (m : list bool) (fuel i : nat) :
  i <= length m -> length m - i <= fuel ->
  list_sum (map snd (find_gaps_outer m (length m) i [] fuel))
  = length (filter (fun b => b) (skipn i m)).
Proof.
  revert i. induction fuel as [|fuel IH]; intros i Hi Hf; cbn [find_gaps_outer].
  - replace i with (length m) by lia. now rewrite skipn_all.
  - destruct (Nat.ltb_spec i (length m)) as [Hlt|Hge].
    2:{ replace i with (length m) by lia. now rewrite skipn_all. }
    destruct (nth i m false) eqn:Ei.
    + rewrite find_gaps_outer_app, map_app, list_sum_app. cbn [app map snd].
      destruct (find_gaps_inner_spec m (length m) i Hi ltac:(lia))
        as ((Hj1 & Hj2) & Hrun & _ & Hprog).
      specialize (Hprog Ei).
      set (j := find_gaps_inner m (length m) i (length m)) in *.
      rewrite IH by lia.
      rewrite (count_run m (j - i) i) by (try lia; intros; apply Hrun; lia).
      replace (i + (j - i)) with j by lia.
      change (list_sum [j - i]) with (j - i + 0). lia.
    + rewrite IH by lia. rewrite (skipn_nth_cons m i) by lia. rewrite Ei.
      now replace (i + 1) with (S i) by lia.
Qed.

(** X4.  The lengths of the gaps add up to the number of [True] entries of
    the mask. *)
Theorem find_gaps_total_length (m : list bool) :
  list_sum (map snd (find_gaps m)) = List.length (filter (fun b => b) m).
Proof.
  unfold find_gaps. now rewrite find_gaps_outer_count by lia.
Qed.

(** X5.  [find_gaps] returns no gap exactly when the mask holds no [True]
    (an empty mask included), and the single gap [(0, n)] when all [n >= 1]
    entries are [True]. *)
Theorem find_gaps_extremes (m : list bool) :
  (find_gaps m = [] <-> forall k, nth k m false = false) /\
  (1 <= List.length m -> (forall k, k < List.length m -> nth k m false = true) ->
   find_gaps m = [(0, List.length m)]).
Proof.
  destruct (find_gaps_spec m) as (HF & HS & HC). rewrite Forall_forall in HF. split.
  - split.
    + intros He k. destruct (nth k m false) eqn:E; auto.
      destruct (HC k E) as (g & Hin & _). rewrite He in Hin. destruct Hin.
    + intros Hn. destruct (find_gaps m) as [|g gaps]; auto.
      destruct (HF g (or_introl eq_refl)) as (Hk & _ & Hrun & _).
      specialize (Hrun (fst g) ltac:(lia)). rewrite Hn in Hrun. discriminate.
  - intros Hlen Hall.
    assert (Hone : forall g, In g (find_gaps m) -> g = (0, List.length m)).
    { intros [s l] Hin. destruct (HF _ Hin) as (Hk & Hr & _ & Hl & Hrt).
      cbn [fst snd] in *.
      assert (s = 0).
      { destruct s as [|s]; auto. specialize (Hl s eq_refl).
        rewrite Hall in Hl by lia. discriminate. }
      subst s. f_equal.
      destruct (Nat.eq_dec l (List.length m)); auto.
      rewrite Hall in Hrt by lia. discriminate. }
    destruct (find_gaps m) as [|g gaps] eqn:Eg.
    + destruct (HC 0) as (g & [] & _). apply Hall. lia.
    + rewrite (Hone g (or_introl eq_refl)) in *. f_equal.
      destruct gaps as [|g' gaps]; auto.
      destruct HS as [_ [Hs _]]. cbn [fst snd] in Hs.
      rewrite (Hone g' (or_intror (or_introl eq_refl))) in Hs. cbn in Hs. lia.
Qed.

Lemma find_gaps_extremes_witness :
  1 <= List.length [true; true; true] /\
  find_gaps [true; true; true] = [(0, 3)].
Proof.
  assert (H1 : 1 <= List.length [true; true; true]) by (cbn; lia).
  assert (H2 : forall k, k < List.length [true; true; true] ->
                         nth k [true; true; true] false = true).
  { intros k Hk. cbn in Hk. do 3 (destruct k as [|k]; [reflexivity|]). lia. }
  split; [exact H1|].
  destruct (find_gaps_extremes [true; true; true]) as [_ H]. exact (H H1 H2).
Defined.

(* ================================================================== *)
(** * Further properties of load_and_clean *)

(** X6.  Every row returned by [load_and_clean] is the cleaned form of a
    row of the input: the temperature is untouched, no value is created or
    dropped (a cell is missing after cleaning exactly when it was missing
    before), a valid relative humidity is at most 100 and is the input value
    unless that exceeded 100 (a negative value is kept), and month and
    hour are those of the date. *)
Theorem load_and_clean_invariants (raw : list RawRow) (r : Row) :
  In r (load_and_clean raw) ->
  exists x,
    In x raw /\
    date r = raw_date x /\ station r = raw_station x /\
    row_temperature r = raw_temperature x /\
    isnan (row_rh r) = isnan (raw_rh x) /\
    isnan (row_wind_speed r) = isnan (raw_wind_speed x) /\
    (forall v, row_rh r = Some v ->
       (v <= 100)%Q /\ exists u, raw_rh x = Some u /\ (v <= u)%Q /\
                                 ((u <= 100)%Q -> v = u)) /\
    month r = dt_month (date r) /\ hour r = dt_hour (date r).
Proof.
  intros Hin. unfold load_and_clean in Hin. apply sort_by_in in Hin.
  apply in_map_iff in Hin. destruct Hin as (x & <- & Hx).
  exists x. split; [exact Hx|]. unfold clean_row. cbn [date station row_temperature
    row_rh row_wind_speed month hour].
  split; [reflexivity|]. split; [reflexivity|]. split; [reflexivity|].
  split; [destruct (raw_rh x) as [u|]; [destruct (Qle_bool u 100)|]; reflexivity|].
  split; [now destruct (raw_wind_speed x)|].
  split; [|split; reflexivity].
  intros v Hv. destruct (raw_rh x) as [u|]; [|discriminate].
  destruct (Qle_bool u 100) eqn:E; injection Hv as <-.
  - apply Qle_bool_iff in E. split; auto. exists u. repeat split; auto. apply Qle_refl.
  - split; [apply Qle_refl|]. exists u. split; auto.
    assert (Hn : ~ (u <= 100)%Q) by (intros H; apply Qle_bool_iff in H; congruence).
    split; [|intros H; now destruct Hn].
    apply Qnot_le_lt in Hn. now apply Qlt_le_weak.
Qed.

Lemma load_and_clean_invariants_witness :
  exists r, In r (load_and_clean unordered_raw) /\ date r = mkDatetime 2015 1 1 2 0 /\
            month r = 1%Z /\ hour r = 2%Z.
Proof.
  set (r := clean_row (raw_hourly 2 (Some 24%Q))).
  assert (H : In r (load_and_clean unordered_raw)) by (vm_compute; auto 10).
  exists r. split; [exact H|]. split; [reflexivity|].
  destruct (load_and_clean_invariants unordered_raw r H)
    as (x & _ & _ & _ & _ & _ & _ & _ & Hm & Hh).
  split; [exact Hm|exact Hh].
Defined.

(* ================================================================== *)
(** * Further properties of build_diurnal_profiles *)







Lemma Permutation_dropna (l l' : list float) :
  Permutation l l' -> Permutation (dropna l) (dropna l').
Proof.
  induction 1 as [|x l l' _ IH|x y l|l l' l'' _ IH1 _ IH2]; cbn.
  - constructor.
  - destruct x; auto.
  - destruct x, y; auto using perm_swap, Permutation_refl.
  - eauto using Permutation_trans.
Qed.

Lemma Permutation_filter_rows (f : Row -> bool) (l l' : list Row) :
  Permutation l l' -> Permutation (filter f l) (filter f l').
Proof.
  induction 1 as [|x l l' _ IH|x y l|l l' l'' _ IH1 _ IH2]; cbn.
  - constructor.
  - destruct (f x); auto.
  - destruct (f x), (f y); auto using perm_swap, Permutation_refl.
  - eauto using Permutation_trans.
Qed.

Lemma Qsum_Permutation (l l' : list Q) : Permutation l l' -> (Qsum l == Qsum l')%Q.
Proof.
  unfold Qsum.
  induction 1 as [|x l l' _ IH|x y l|l l' l'' _ IH1 _ IH2]; cbn [fold_right].
  - reflexivity.
  - now rewrite IH.
  - ring.
  - now rewrite IH1.
Qed.

Lemma mean_Permutation (l l' : list float) :
  Permutation l l' -> feq (mean l) (mean l').
Proof.
  intros H. apply Permutation_dropna in H. unfold mean.
  pose proof (Permutation_length H) as Hl.
  pose proof (Qsum_Permutation _ _ H) as Hs.
  destruct (dropna l) as [|v vs], (dropna l') as [|v' vs'];
    try discriminate Hl; unfold nan; cbn [feq]; auto.
  now rewrite Hs, Hl.
Qed.

(** X8.  The profile does not depend on the order of the rows: for two
    frames with the same rows in any order, every lookup gives the same
    mean. *)
Theorem profile_order_independent (df df' : DataFrame) (var : Var) (k : Key) :
  Permutation df df' ->
  feq (Series_get (build_diurnal_profiles df var) k nan)
      (Series_get (build_diurnal_profiles df' var) k nan).
Proof.
  intros H. rewrite !profile_lookup. apply mean_Permutation.
  now apply Permutation_map, Permutation_filter_rows.
Qed.

Lemma profile_order_independent_witness :
  Permutation partial_df (rev partial_df) /\
  feq (Series_get (build_diurnal_profiles partial_df temperature)
                  (StrId "S1", 1%Z, 1%Z) nan)
      (Series_get (build_diurnal_profiles (rev partial_df) temperature)
                  (StrId "S1", 1%Z, 1%Z) nan).
Proof.
  assert (H : Permutation partial_df (rev partial_df)) by apply Permutation_rev.
  split; [exact H|].
  exact (profile_order_independent _ _ temperature (StrId "S1", 1%Z, 1%Z) H).
Defined.

(* ================================================================== *)
(** * Errors of impute_gap_strategy_b *)

Lemma getitem_cases {A : Type} (l : list A) (i : nat) :
  (exists a, getitem l i = Ok a /\ i < length l) \/
  (getitem l i = Raise IndexError /\ length l <= i).
Proof.
  unfold getitem. destruct (nth_error l i) as [a|] eqn:E.
  - left. exists a. split; auto. apply nth_error_Some. congruence.
  - right. split; auto. now apply nth_error_None.
Qed.

Lemma mapM_getitem_raise {A : Type} (l : list A) (indices : list nat) (i : nat) :
  In i indices -> length l <= i -> mapM (getitem l) indices = Raise IndexError.
Proof.
  induction indices as [|a indices IH]; intros Hin Hi; [easy|].
  cbn [mapM]. destruct (getitem_cases l a) as [(x & -> & Ha)|[-> _]]; auto.
  cbn [bind]. destruct Hin as [->|Hin]; [lia|]. now rewrite IH.
Qed.

(** X9.  [impute_gap_strategy_b] raises [IndexError] on a frame without
    rows, whatever the indices, and on any index list with an index beyond
    the last row; on a frame with rows and an empty index list it returns
    the empty array. *)
Theorem impute_gap_strategy_b_errors (df : DataFrame) (var : Var) (profiles : Profiles) :
  (forall indices, impute_gap_strategy_b [] indices var profiles = Raise IndexError) /\
  (forall indices i,
     In i indices -> List.length df <= i ->
     impute_gap_strategy_b df indices var profiles = Raise IndexError) /\
  (df <> [] -> impute_gap_strategy_b df [] var profiles = Ok []).
Proof.
  split; [reflexivity|]. split.
  - intros indices i Hin Hi. unfold impute_gap_strategy_b, strategy_b_result.
    destruct (getitem_cases df 0) as [(r0 & -> & _)|[-> _]]; auto.
    cbn [bind]. now rewrite (mapM_getitem_raise df indices i Hin Hi).
  - intros Hne. destruct df as [|r df]; [congruence|]. reflexivity.
Qed.

Lemma impute_gap_strategy_b_errors_witness :
  In 12 [9; 10; 11; 12] /\ List.length partial_df <= 12 /\
  impute_gap_strategy_b partial_df [9; 10; 11; 12] temperature partial_profiles
  = Raise IndexError.
Proof.
  assert (H1 : In 12 [9; 10; 11; 12]) by (cbn; auto).
  assert (H2 : List.length partial_df <= 12) by (vm_compute; lia).
  split; [exact H1|]. split; [exact H2|].
  destruct (impute_gap_strategy_b_errors partial_df temperature partial_profiles)
    as (_ & H & _).
  exact (H _ 12 H1 H2).
Defined.

(* ================================================================== *)
(** * The cells that stay missing *)






(* ================================================================== *)
(** * Strategy A stays between the boundary values *)

Lemma interior_between (b a : Q) (k i : nat) :
  k <= 2 -> i < k ->
  let x := (b + inject_Z (Z.of_nat (S i)) * ((a - b) / inject_Z (Z.of_nat (k + 2 - 1))))%Q in
  ((b <= a -> b <= x /\ x <= a) /\ (a <= b -> a <= x /\ x <= b))%Q.
Proof.
  intros Hk Hi.
  assert (Hcases : (k = 1 /\ i = 0) \/ (k = 2 /\ i = 0) \/ (k = 2 /\ i = 1)) by lia.
  destruct Hcases as [[-> ->]|[[-> ->]|[-> ->]]]; cbn.
  - setoid_replace (b + 1 * ((a - b) / 2))%Q with ((1 # 2) * b + (1 # 2) * a)%Q by field.
    repeat split; lra.
  - setoid_replace (b + 1 * ((a - b) / 3))%Q with ((2 # 3) * b + (1 # 3) * a)%Q by field.
    repeat split; lra.
  - setoid_replace (b + 2 * ((a - b) / 3))%Q with ((1 # 3) * b + (2 # 3) * a)%Q by field.
    repeat split; lra.
Qed.

(** X11.  A gap of one or two rows with both boundary values within the
    float range and in the domain of the variable is filled with values
    that lie between them, the boundary values included. *)
Theorem strategy_a_between_boundaries (df : DataFrame) (profiles : Profiles) (var : Var)
    (start length : nat) (b a : Q) :
  In (start, length) (find_gaps (is_missing var df)) ->
  length <= 2 ->
  boundary_before (column var df) start = Some b ->
  boundary_after (column var df) start length = Some a ->
  float_range b -> float_range a ->
  in_domain var b -> in_domain var a ->
  exists df' methods,
    impute_station df profiles = Ok (df', methods) /\
    forall i, i < length ->
      exists v,
        nth (start + i) (column var df') nan = Some v /\
        ((b <= a -> b <= v /\ v <= a) /\ (a <= b -> a <= v /\ v <= b))%Q.
Proof.
  intros Hin Hk Hb Ha _ _ Hdb Hda.
  exists (fst (imputed profiles df)), (snd (imputed profiles df)).
  split; [rewrite impute_station_ok; now destruct (imputed profiles df)|].
  intros i Hi.
  destruct (gap_after_run profiles df var start length i Hin Hi) as [Hc _].
  unfold gap_values in Hc. rewrite Hb, Ha in Hc.
  destruct (gap_in_range df var start length Hin) as (Hk1 & _).
  destruct (Nat.ltb_spec 24 length); [lia|].
  destruct (Nat.leb_spec length 2); [|lia].
  cbn [interpolate] in Hc. rewrite nth_enforce_bounds in Hc.
  destruct (nth_interpolate_both b a length i Hi) as (x & Hx & Hxeq & _).
  assert (Hcell : nth (start + i) (column var (fst (imputed profiles df))) nan = Some x).
  { rewrite Hc. transitivity (bound var (Some x)); [f_equal; exact Hx|].
    apply bound_in_domain. rewrite Hxeq. now apply interior_in_domain. }
  exists x. split; [exact Hcell|]. rewrite Hxeq. now apply interior_between.
Qed.

Lemma strategy_a_between_boundaries_witness :
  exists df' methods,
    impute_station (load_and_clean scenario1_raw) scenario2_profiles = Ok (df', methods) /\
    float_range 20 /\ float_range 24 /\
    exists v, nth (1 + 0) (column temperature df') nan = Some v /\ (20 <= v /\ v <= 24)%Q.
Proof.
  assert (H1 : In (1, 2) (find_gaps (is_missing temperature (load_and_clean scenario1_raw))))
    by (cbn; auto).
  assert (H2 : 2 <= 2) by lia.
  assert (H3 : boundary_before (column temperature (load_and_clean scenario1_raw)) 1
               = Some 20%Q) by reflexivity.
  assert (H4 : boundary_after (column temperature (load_and_clean scenario1_raw)) 1 2
               = Some 24%Q) by reflexivity.
  assert (H20 : float_range 20)
    by (split; vm_compute; intros H; discriminate H).
  assert (H24 : float_range 24)
    by (split; vm_compute; intros H; discriminate H).
  destruct (strategy_a_between_boundaries (load_and_clean scenario1_raw) scenario2_profiles
              temperature 1 2 20%Q 24%Q H1 H2 H3 H4 H20 H24 I I)
    as (df' & methods & Hrun & Hv).
  exists df', methods. split; [exact Hrun|]. split; [exact H20|]. split; [exact H24|].
  destruct (Hv 0 ltac:(lia)) as (v & Hc & Hle & _).
  exists v. split; [exact Hc|]. apply Hle. vm_compute. intros H; discriminate H.
Defined.

(* ================================================================== *)
(** * The blended offsets of Strategy B *)

Lemma ramp_unit (k i : nat) :
  2 <= k -> i < k ->
  (0 <= inject_Z (Z.of_nat i) / inject_Z (Z.of_nat (k - 1)) /\
   inject_Z (Z.of_nat i) / inject_Z (Z.of_nat (k - 1)) <= 1)%Q.
Proof.
  intros Hk Hi.
  assert (Hpos : (0 < inject_Z (Z.of_nat (k - 1)))%Q) by (unfold Qlt; cbn; lia).
  split.
  - apply Qle_shift_div_l; auto. rewrite Qmult_0_l. unfold Qle. cbn. lia.
  - apply Qle_shift_div_r; auto. rewrite Qmult_1_l. rewrite <- Zle_Qle. lia.
Qed.

(** X15.  With both edge offsets present, the offset added at a position of
    a gap of two or more rows lies between the two edge offsets; it is the
    offset before the gap at the first position and the offset after the gap
    at the last one. *)
Theorem blend_offsets_between (bo ao : Q) (k i : nat) :
  2 <= k -> i < k ->
  let o := nth i (blend_offsets (Some bo) (Some ao) k) 0%Q in
  ((bo <= ao -> bo <= o /\ o <= ao) /\
   (ao <= bo -> ao <= o /\ o <= bo))%Q /\
  (i = 0 -> (o == bo)%Q) /\
  (i = k - 1 -> (o == ao)%Q).
Proof.
  intros Hk Hi o.
  assert (Ho : (o == bo - inject_Z (Z.of_nat i) / inject_Z (Z.of_nat (k - 1)) * (bo - ao))%Q).
  { unfold o, blend_offsets.
    rewrite (nth_map_lt _ _ _ 0%Q) by (now rewrite linspace_length).
    rewrite linspace_ramp by lia. ring. }
  destruct (ramp_unit k i Hk Hi) as [Ht0 Ht1].
  pose proof (inject_nat_nonzero (k - 1) ltac:(lia)) as Hnz.
  set (t := (inject_Z (Z.of_nat i) / inject_Z (Z.of_nat (k - 1)))%Q) in *.
  split; [|split].
  - rewrite Ho. split; intros H; split; nra.
  - intros ->. rewrite Ho. unfold t. change (inject_Z (Z.of_nat 0)) with 0%Q. field.
    exact Hnz.
  - intros ->. rewrite Ho. unfold t. field. exact Hnz.
Qed.

Lemma blend_offsets_between_witness :
  2 <= 6 /\ 2 < 6 /\
  (- (1) <= nth 2 (blend_offsets (Some 1%Q) (Some (- (1))%Q) 6) 0 /\
   nth 2 (blend_offsets (Some 1%Q) (Some (- (1))%Q) 6) 0 <= 1)%Q.
Proof.
  assert (H1 : 2 <= 6) by lia. assert (H2 : 2 < 6) by lia.
  split; [exact H1|]. split; [exact H2|].
  destruct (blend_offsets_between 1%Q (- (1))%Q 6 2 H1 H2) as [[_ H] _].
  apply H. discriminate.
Defined.

(* ================================================================== *)
(** * The format of the records *)

Lemma method_string_format (profiles : Profiles) (df : DataFrame) (i : nat) :
  let record := method_string profiles df i in
  String.concat "," (entries record) = record /\
  entries record
  = flat_map (fun var => map (tag_of var) (strategies_of record var)) IMPUTE_VARS /\
  forall var,
    strategies_of record var = [] \/ strategies_of record var = ["A"%string] \/
    strategies_of record var = ["B"%string].
Proof.
  unfold method_string, tag_cell.
  pose proof (imputed_cell_strategy profiles temperature df i) as H1.
  pose proof (imputed_cell_strategy profiles rh df i) as H2.
  pose proof (imputed_cell_strategy profiles wind_speed df i) as H3.
  destruct (imputed_cell profiles temperature df i) as [[v1 s1]|];
    destruct (imputed_cell profiles rh df i) as [[v2 s2]|];
    destruct (imputed_cell profiles wind_speed df i) as [[v3 s3]|];
    try (destruct (H1 _ _ eq_refl) as [-> | ->]);
    try (destruct (H2 _ _ eq_refl) as [-> | ->]);
    try (destruct (H3 _ _ eq_refl) as [-> | ->]);
    (split; [reflexivity|split; [reflexivity|intros []; cbn; auto]]).
Qed.

(** X12.  Every record returned by [impute_station] reads back: split at
    the commas and joined again it is the same string; its entries are
    [variable:strategy] pairs in the order temperature, rh, wind_speed, at
    most one for each variable, with strategy "A" or "B"; the record of a
    row without a tag is the empty string. *)
Theorem record_round_trip (df : DataFrame) (profiles : Profiles) :
  exists df' methods,
    impute_station df profiles = Ok (df', methods) /\
    forall i,
      let record := nth i methods ""%string in
      String.concat "," (entries record) = record /\
      entries record
      = flat_map (fun var => map (tag_of var) (strategies_of record var)) IMPUTE_VARS /\
      (forall var,
         strategies_of record var = [] \/ strategies_of record var = ["A"%string] \/
         strategies_of record var = ["B"%string]) /\
      (record = ""%string <-> forall var, strategies_of record var = []).
Proof.
  exists (fst (imputed profiles df)), (snd (imputed profiles df)).
  split; [rewrite impute_station_ok; now destruct (imputed profiles df)|].
  intros i record.
  assert (Hfmt : String.concat "," (entries record) = record /\
                 entries record
                 = flat_map (fun var => map (tag_of var) (strategies_of record var))
                            IMPUTE_VARS /\
                 forall var,
                   strategies_of record var = [] \/
                   strategies_of record var = ["A"%string] \/
                   strategies_of record var = ["B"%string]).
  { unfold record. destruct (Nat.ltb_spec i (List.length df)) as [Hi|Hi].
    - rewrite imputed_method by auto. apply method_string_format.
    - rewrite nth_overflow by (now rewrite imputed_methods_length).
      split; [reflexivity|]. split; [reflexivity|]. intros []; auto. }
  destruct Hfmt as (H1 & H2 & H3). repeat split; auto.
  - intros -> var. now destruct var.
  - intros Hnone. rewrite <- H1, H2. cbn [IMPUTE_VARS flat_map].
    now rewrite !Hnone.
Qed.

(* ================================================================== *)
(** * The frame written by main *)

Lemma unique_NoDup (l : list StationId) : NoDup (unique l).
Proof.
  induction l as [|a l IH]; cbn; constructor.
  - rewrite filter_In, negb_true_iff. intros [_ H].
    rewrite (proj2 (station_eqb_eq a a) eq_refl) in H. discriminate H.
  - now apply NoDup_filter.
Qed.

Lemma insert_by_NoDup {A : Type} (leb : A -> A -> bool) (x : A) (l : list A) :
  NoDup (x :: l) -> NoDup (insert_by leb x l).
Proof.
  induction l as [|y l IH]; cbn; auto. intros H.
  destruct (leb x y); auto.
  inversion H as [|? ? Hx Hyl]; subst. inversion Hyl as [|? ? Hy Hl]; subst.
  constructor.
  - rewrite insert_by_in. intros [->|Hin]; auto. apply Hx. now left.
  - apply IH. constructor; auto. intros Hin. apply Hx. now right.
Qed.

Lemma sort_by_NoDup {A : Type} (leb : A -> A -> bool) (l : list A) :
  NoDup l -> NoDup (sort_by leb l).
Proof.
  unfold sort_by. induction 1 as [|x l Hx Hl IH]; cbn; [constructor|].
  apply insert_by_NoDup. constructor; auto.
  intros Hin. apply Hx. now apply (sort_by_in leb x l).
Qed.

Lemma list_sum_map_add {A : Type} (f g : A -> nat) (l : list A) :
  list_sum (map (fun x => f x + g x) l) = list_sum (map f l) + list_sum (map g l).
Proof.
  unfold list_sum. induction l as [|x l IH]; cbn [map fold_right]; auto.
  rewrite IH. lia.
Qed.

Lemma station_count_notin (s : StationId) (l : list StationId) :
  ~ In s l ->
  list_sum (map (fun st => if station_eqb s st then 1 else 0) l) = 0.
Proof.
  unfold list_sum. induction l as [|a l IH]; intros H; cbn [map fold_right]; auto.
  destruct (station_eqb_spec s a) as [->|Hne].
  - destruct H. now left.
  - rewrite IH; auto. intros Hin. apply H. now right.
Qed.

Lemma station_count_in (s : StationId) (l : list StationId) :
  NoDup l -> In s l ->
  list_sum (map (fun st => if station_eqb s st then 1 else 0) l) = 1.
Proof.
  induction 1 as [|a l Ha Hnd IH]; intros Hin; [easy|].
  change (list_sum (map (fun st => if station_eqb s st then 1 else 0) (a :: l)))
    with ((if station_eqb s a then 1 else 0)
          + list_sum (map (fun st => if station_eqb s st then 1 else 0) l)).
  destruct (station_eqb_spec s a) as [->|Hne].
  - now rewrite station_count_notin.
  - destruct Hin as [->|Hin]; [congruence|]. now rewrite IH.
Qed.

(** The rows of a frame, split by station, are as many as the rows. *)
Lemma split_by_station_length (df : DataFrame) (stations : list StationId) :
  NoDup stations -> (forall r, In r df -> In (station r) stations) ->
  list_sum (map (fun st => length (filter (fun r => station_eqb (station r) st) df)) stations)
  = length df.
Proof.
  intros Hnd. induction df as [|r df IH]; intros Hall.
  - cbn [filter length]. clear. unfold list_sum.
    induction stations as [|s l IHl]; cbn [map fold_right]; auto.
  - change (length (r :: df)) with (1 + length df).
    rewrite <- IH by (intros; apply Hall; now right).
    rewrite <- (station_count_in (station r) stations Hnd) by (apply Hall; now left).
    rewrite <- list_sum_map_add. f_equal. apply map_ext. intros st.
    cbn [filter]. now destruct (station_eqb (station r) st).
Qed.

Lemma sorted_rows_map_out (l : list OutRow) :
  sorted_rows (map out_row (sort_by (fun a b => row_leb (out_row a) (out_row b)) l)).
Proof.
  assert (Hins : forall x l', map out_row (insert_by (fun a b => row_leb (out_row a) (out_row b)) x l')
                              = insert_by row_leb (out_row x) (map out_row l')).
  { intros x l'. induction l' as [|y l' IH]; cbn; auto.
    destruct (row_leb (out_row x) (out_row y)); cbn; auto. now rewrite IH. }
  unfold sort_by. induction l as [|x l IH]; cbn [fold_right].
  - constructor.
  - rewrite Hins. now apply insert_by_sorted.
Qed.

(** X13.  On a table with at least one row and station ids of one kind
    [main] returns as many rows as it was given, in the order of station
    and date. *)
Theorem main_keeps_rows (raw : list RawRow) :
  raw <> [] -> one_kind (map raw_station raw) = true ->
  exists out,
    main raw = Ok out /\
    List.length out = List.length raw /\
    sorted_rows (map out_row out).
Proof.
  intros Hne Hk. rewrite main_ok, Hk.
  destruct raw as [|x0 raw0] eqn:Eraw; [congruence|]. rewrite <- Eraw. clear Hne Hk.
  eexists. split; [reflexivity|]. split.
  - rewrite sort_by_length, length_concat, map_map.
    set (df := load_and_clean raw).
    rewrite (map_ext _ (fun st => length (filter (fun r => station_eqb (station r) st) df))).
    + rewrite split_by_station_length.
      * unfold df, load_and_clean. now rewrite sort_by_length, length_map.
      * apply sort_by_NoDup, unique_NoDup.
      * intros r Hr. apply sort_by_in, unique_In, in_map. exact Hr.
    + intros st. cbn zeta. rewrite length_map, length_combine.
      rewrite imputed_length, imputed_methods_length. lia.
  - apply sorted_rows_map_out.
Qed.

Lemma main_keeps_rows_witness :
  unordered_raw <> [] /\
  one_kind (map raw_station unordered_raw) = true /\
  exists out,
    main unordered_raw = Ok out /\
    List.length out = 4 /\
    sorted_rows (map out_row out).
Proof.
  assert (H0 : unordered_raw <> []) by discriminate.
  assert (Hk : one_kind (map raw_station unordered_raw) = true) by reflexivity.
  split; [exact H0|]. split; [exact Hk|].
  exact (main_keeps_rows unordered_raw H0 Hk).
Defined.

(* ================================================================== *)
(** * Frames the run leaves alone *)

Lemma imputed_nothing (profiles : Profiles) (df : DataFrame) :
  (forall var i, imputed_cell profiles var df i = None) ->
  imputed profiles df = (df, repeat ""%string (length df)).
Proof.
  intros Hnone. unfold imputed. f_equal.
  - apply mapi_from_id. intros i r _. unfold fill_row, fill_cell. now rewrite !Hnone.
  - apply nth_error_ext. intros i. rewrite nth_error_mapi_from.
    unfold method_string, tag_cell. rewrite !Hnone.
    destruct (Nat.ltb_spec i (length df)) as [Hi|Hi].
    + rewrite (nth_error_repeat _ Hi).
      destruct (nth_error df i) eqn:E; auto. apply nth_error_None in E. lia.
    + replace (nth_error df i) with (@None Row)
        by (symmetry; now apply nth_error_None).
      symmetry. apply nth_error_None. now rewrite repeat_length.
Qed.

(** X16.  When no variable has a gap of 24 rows or fewer (in particular
    when nothing is missing), [impute_station] returns the frame it was
    given, with an empty record for every row. *)
Theorem no_short_gap_no_change (df : DataFrame) (profiles : Profiles) :
  (forall var start length,
     In (start, length) (find_gaps (is_missing var df)) -> 24 < length) ->
  impute_station df profiles = Ok (df, repeat ""%string (List.length df)).
Proof.
  intros Hlong. rewrite impute_station_ok. f_equal. apply imputed_nothing.
  intros var i. unfold imputed_cell, outcome_at.
  destruct (gap_of _ i) as [[s k]|] eqn:E; auto.
  apply gap_of_Some in E. destruct E as [Hin _]. specialize (Hlong var s k Hin).
  unfold gap_values. now destruct (Nat.ltb_spec 24 k); [|lia].
Qed.

Lemma no_short_gap_no_change_witness :
  impute_station scenario3_df scenario2_profiles
  = Ok (scenario3_df, repeat ""%string (List.length scenario3_df)).
Proof.
  apply no_short_gap_no_change.
  intros var start length Hin.
  destruct var; vm_compute in Hin; try tauto.
  destruct Hin as [[= <- <-]|[]]. lia.
Defined.
